(** * Tweet analysis and sentiment API: the ingestion and retrieval core

    A shallow embedding of [Backend/preprocess.py], [Backend/vader.py],
    [Backend/database.py], [Backend/similarity.py], the routes of
    [Backend/main.py] and the top words of [Frontend/main.py].

    Conventions.
    - A Python [str] is a [string]; a character is its code point, below 256.
      The classes [\s] and [\w] are those of Python 3's [re] on [str]
      patterns ([str.isspace], and [str.isalnum] or ['_']) on that range.
    - Library calls ([re.sub], [str.strip], SQLite's [BETWEEN] and [LIKE],
      [sorted], [DataFrame.nlargest]) are written out as the functions
      their documentation describes. What it leaves open is a class the
      code is stated over: the numbers [cosine_similarity] computes in
      binary64, the order an unstable sort gives equal values, JSON at a
      Python type, the validation of a pydantic field.
    - A raised exception is a value of [exn]; a function that can raise
      returns a [result]. *)

From Stdlib Require Import Bool Arith ZArith NArith QArith List Lia.
From Stdlib Require Import Reals Lra.
From Stdlib Require Import Ascii String.
From Stdlib Require Import Permutation Sorted.
Import ListNotations.

Close Scope Q_scope.
Close Scope R_scope.
Local Open Scope string_scope.

(** ** Exceptions *)

Inductive exn : Type :=
| ValueError (msg : string)
| JSONDecodeError
| HTTPException (status : Z) (detail : string).

Inductive result (A : Type) : Type :=
| Return (a : A)
| Raise (e : exn).

Arguments Return {A} a.
Arguments Raise {A} e.

Definition bind {A B : Type} (r : result A) (k : A -> result B) : result B :=
  match r with
  | Return a => k a
  | Raise e => Raise e
  end.

Notation "'do' x <- r ; k" := (bind r (fun x => k))
  (at level 10, x name, r at level 100, k at level 200).

(** [json.dumps] and [json.loads] at one Python type. [json_loads] raises
    [JSONDecodeError] on a text that is not JSON. *)
Class JsonDumps (A : Type) : Type := {
  json_dumps : A -> string
}.

Class JsonLoads (A : Type) : Type := {
  json_loads : string -> result A
}.

(** JSON at [NoneType]: the text [null]. *)
#[export] Instance json_none : JsonLoads unit := {
  json_loads := fun s =>
    if String.eqb s "null" then Return tt else Raise JSONDecodeError
}.

(** ** Characters and the [re] patterns of [preprocess.py] *)

Module Preprocess.

(** [\s]: the code points below 256 for which [str.isspace] holds. *)
Definition is_space (c : ascii) : bool :=
  let n := N_of_ascii c in
  (((9 <=? n) && (n <=? 13)) || ((28 <=? n) && (n <=? 32))
   || (n =? 133) || (n =? 160))%N.

(** [\w]: the code points below 256 that are alphanumeric, and ['_']. *)
Definition is_word (c : ascii) : bool :=
  let n := N_of_ascii c in
  (((48 <=? n) && (n <=? 57)) || ((65 <=? n) && (n <=? 90))
   || ((97 <=? n) && (n <=? 122)) || (n =? 95)
   || (n =? 170) || (n =? 178) || (n =? 179) || (n =? 181)
   || (n =? 185) || (n =? 186) || ((188 <=? n) && (n <=? 190))
   || ((192 <=? n) && (n <=? 214)) || ((216 <=? n) && (n <=? 246))
   || (248 <=? n))%N.

Definition newline : ascii := "010"%char.

(** Length of the longest prefix of [s] whose characters satisfy [p]
    (a greedy [p+] or [p*]). *)
Fixpoint run_length (p : ascii -> bool) (s : string) : nat :=
  match s with
  | String c t => if p c then S (run_length p t) else 0
  | EmptyString => 0
  end.

(** The character [s] starts with satisfies [p]. *)
Definition next_is (p : ascii -> bool) (s : string) : bool :=
  match s with
  | String c _ => p c
  | EmptyString => false
  end.

(** [\S] *)
Definition not_space (c : ascii) : bool := negb (is_space c).

(** [str.startswith]. *)
Definition startswith (s pre : string) : bool := prefix pre s.

(** [s[n:]]. *)
Fixpoint drop (n : nat) (s : string) : string :=
  match n, s with
  | S k, String _ t => drop k t
  | _, _ => s
  end.

(** A pattern, as [re] tries it at one position: [m prev s] is the length of
    the match that starts at the beginning of [s], where [prev] is the
    character before it ([None] at the start of the text). *)
Definition matcher : Type := option ascii -> string -> option nat.

(** [re.sub(pattern, repl, s)] for a pattern that matches no empty string:
    the text is scanned from the left; where the pattern matches, the match
    is replaced by [repl] and the scan resumes after it. [skip] counts the
    characters of the current match that are still to be passed over. *)
Fixpoint re_sub_from (m : matcher) (repl : string)
    (prev : option ascii) (skip : nat) (s : string) : string :=
  match s with
  | EmptyString => EmptyString
  | String c t =>
      match skip with
      | S k => re_sub_from m repl (Some c) k t
      | O =>
          match m prev s with
          | Some (S k) => repl ++ re_sub_from m repl (Some c) k t
          | _ => String c (re_sub_from m repl (Some c) 0 t)
          end
      end
  end.

Definition re_sub (m : matcher) (repl : string) (s : string) : string :=
  re_sub_from m repl None 0 s.

(** [@\w+] *)
Definition mention : matcher := fun _ s =>
  match s with
  | String "@" t =>
      match run_length is_word t with
      | O => None
      | S k => Some (S (S k))
      end
  | _ => None
  end.

(** [http[s]?://\S+] *)
Definition url : matcher := fun _ s =>
  let rest (n : nat) (t : string) :=
    match run_length not_space t with
    | O => None
    | S k => Some (n + S k)
    end in
  if prefix "https://" s then rest 8 (drop 8 s)
  else if prefix "http://" s then rest 7 (drop 7 s)
  else None.

(** [\b#]: a ['#'] with a word boundary in front of it, that is, one whose
    previous character is a word character (['#'] itself is not one). *)
Definition boundary_hash : matcher := fun prev s =>
  match s with
  | String "#" _ =>
      match prev with
      | Some p => if is_word p then Some 1 else None
      | None => None
      end
  | _ => None
  end.

(** [\s+] *)
Definition spaces : matcher := fun _ s =>
  match run_length is_space s with
  | O => None
  | S k => Some (S k)
  end.

(** [str.replace('\n', ' ')] *)
Fixpoint replace_newlines (s : string) : string :=
  match s with
  | EmptyString => EmptyString
  | String c t =>
      String (if Ascii.eqb c newline then " "%char else c) (replace_newlines t)
  end.

(** [str.lstrip()], [str.rstrip()] and [str.strip()]. *)
Fixpoint lstrip (s : string) : string :=
  match s with
  | String c t => if is_space c then lstrip t else s
  | EmptyString => EmptyString
  end.

Fixpoint rstrip (s : string) : string :=
  match s with
  | EmptyString => EmptyString
  | String c t =>
      match rstrip t with
      | EmptyString => if is_space c then EmptyString else String c EmptyString
      | t' => String c t'
      end
  end.

Definition strip (s : string) : string := rstrip (lstrip s).

(** The steps [cleanup] (per row) and [cleanup_single] share. *)
Definition remove_mentions (s : string) : string := re_sub mention "" s.
Definition remove_urls (s : string) : string := re_sub url "" s.
Definition remove_rt (s : string) : string :=
  if startswith s "RT : " then drop (length "RT : ") s else s.
Definition remove_hash (s : string) : string := re_sub boundary_hash "" s.

(** [cleanup_single(tweet)] *)
Definition cleanup_single (tweet : string) : string :=
  let cleaned_tweet := remove_mentions tweet in
  let cleaned_tweet := remove_urls cleaned_tweet in
  let cleaned_tweet := remove_rt cleaned_tweet in
  let cleaned_tweet := remove_hash cleaned_tweet in
  let cleaned_tweet := replace_newlines cleaned_tweet in
  let cleaned_tweet := strip (re_sub spaces " " cleaned_tweet) in
  cleaned_tweet.

(** The text steps of [cleanup(df)] on one row, after [expand_acronyms]. *)
Definition cleanup_row (expanded : string) : string :=
  let cleaned_text := strip (remove_mentions expanded) in
  let cleaned_text := strip (remove_urls cleaned_text) in
  let cleaned_text := remove_rt cleaned_text in
  let cleaned_text := remove_hash cleaned_text in
  replace_newlines cleaned_text.

(** Whether the pattern matches anywhere in [s]. *)
Fixpoint has_match (m : matcher) (prev : option ascii) (s : string) : bool :=
  match s with
  | EmptyString => false
  | String c t =>
      match m prev s with
      | Some (S _) => true
      | _ => has_match m (Some c) t
      end
  end.

Definition contains_mention (s : string) : bool := has_match mention None s.
Definition contains_url (s : string) : bool := has_match url None s.

Fixpoint contains_char (a : ascii) (s : string) : bool :=
  match s with
  | EmptyString => false
  | String c t => Ascii.eqb c a || contains_char a t
  end.

(** An ['@'] with a word character after it occurs in [s]. *)
Fixpoint at_then_word (s : string) : bool :=
  match s with
  | EmptyString => false
  | String c t => (Ascii.eqb c "@" && next_is is_word t) || at_then_word t
  end.

(** [re.sub(r'\s+', ' ', s)], written as one pass with a flag that tells
    whether the previous character was white space. *)
Fixpoint collapse_from (in_run : bool) (s : string) : string :=
  match s with
  | EmptyString => EmptyString
  | String c t =>
      if is_space c
      then if in_run then collapse_from true t
           else String " " (collapse_from true t)
      else String c (collapse_from false t)
  end.

(** The shape of a text after white space was collapsed: every white-space
    character is a single [' '] and the next character is not white space. *)
Fixpoint single_spaced (s : string) : bool :=
  match s with
  | EmptyString => true
  | String c t =>
      (if is_space c then Ascii.eqb c " " && negb (next_is is_space t) else true)
      && single_spaced t
  end.

End Preprocess.


(** ** [vader.py] *)

Module Vader.
Import Preprocess.

(** What [polarity_scores] returns: the keys ['neg'], ['neu'], ['pos'] and
    ['compound']. A float is written as the rational it stands for. The
    tests [x >= 0.05] and [x <= -0.05] on floats come out as the same tests
    on these rationals: 0.05 is no float, and the float the literal [0.05]
    denotes is the one nearest to it, so no float lies between the two. *)
Record Scores : Type := mkScores {
  neg : Q;
  neu : Q;
  pos : Q;
  compound : Q
}.

(** The analyzer [vader_init] returns, as far as this code uses it: the
    method [polarity_scores]. *)
Record SentimentIntensityAnalyzer : Type := {
  polarity_scores : string -> Scores
}.

(** [classify_sentiment(score)] *)
Definition classify_sentiment (score : Scores) : string :=
  if Qle_bool 0.05%Q (compound score) then "positive"
  else if Qle_bool (compound score) (-0.05)%Q then "negative"
  else "neutral".

(** [vader_analyze_tweet(sia, tweet)] *)
Definition vader_analyze_tweet (sia : SentimentIntensityAnalyzer)
    (tweet : string) : string * Scores * string :=
  let cleaned_tweet := cleanup_single tweet in
  let score := polarity_scores sia cleaned_tweet in
  let sentiment := classify_sentiment score in
  (tweet, score, sentiment).

(** The data frame of the ingestion, by column. A column that was not set
    yet is empty. *)
Record DataFrame : Type := mkDataFrame {
  df_date : list string;
  df_text : list string;
  df_cleaned_text : list string;
  df_cleaned_date : list string;
  df_scores : list string;
  df_sentiment : list string;
  df_embedding : list string
}.

(** [vader_analyze_dataframe(sia, df)] *)
Definition vader_analyze_dataframe `{JsonDumps Scores}
    (sia : SentimentIntensityAnalyzer) (df : DataFrame) : DataFrame :=
  let scores := map (fun text => polarity_scores sia text) (df_text df) in
  let sentiment := map (fun score => classify_sentiment score) scores in
  let scores := map json_dumps scores in
  {| df_date := df_date df;
     df_text := df_text df;
     df_cleaned_text := df_cleaned_text df;
     df_cleaned_date := df_cleaned_date df;
     df_scores := scores;
     df_sentiment := sentiment;
     df_embedding := df_embedding df |}.

(** An analyzer with a lexicon of one word, for running the two paths:
    a text in which ["awesome"] occurs scores as the word alone does with
    the weight 0.9 [vader_init] gives it, any other text scores nothing. *)
Fixpoint occurs (w s : string) : bool :=
  match s with
  | EmptyString => prefix w s
  | String _ t => prefix w s || occurs w t
  end.

Definition one_word_analyzer : SentimentIntensityAnalyzer :=
  {| polarity_scores := fun text =>
       if occurs "awesome" text
       then mkScores 0%Q 0%Q 1%Q 0.2263%Q
       else mkScores 0%Q 0%Q 0%Q 0%Q |}.

End Vader.

(** ** [datetime.strptime(s, '%Y%m%d')] *)

Module Datetime.

(** [\d] on code points below 256. *)
Definition is_digit (c : ascii) : bool :=
  let n := N_of_ascii c in ((48 <=? n) && (n <=? 57))%N.

Definition char_in (lo hi : ascii) (c : ascii) : bool :=
  ((N_of_ascii lo <=? N_of_ascii c) && (N_of_ascii c <=? N_of_ascii hi))%N.

(** The regular expressions [_strptime] builds for the directives: classes,
    sequence and ordered choice. *)
Inductive re : Type :=
| Chr (p : ascii -> bool)
| Cat (a b : re)
| Alt (a b : re).

(** Backtracking match at the start of [s]: the first way, in the order
    of the choices, for which the rest of the pattern [k] matches too. *)
Fixpoint re_match {X : Type} (r : re) (s : string)
    (k : string -> option X) : option X :=
  match r with
  | Chr p =>
      match s with
      | String c t => if p c then k t else None
      | EmptyString => None
      end
  | Cat a b => re_match a s (fun t => re_match b t k)
  | Alt a b =>
      match re_match a s k with
      | Some x => Some x
      | None => re_match b s k
      end
  end.

(** [%Y]: [\d\d\d\d] *)
Definition re_Y : re :=
  Cat (Chr is_digit) (Cat (Chr is_digit) (Cat (Chr is_digit) (Chr is_digit))).

(** [%m]: [1[0-2]|0[1-9]|[1-9]] *)
Definition re_m : re :=
  Alt (Cat (Chr (Ascii.eqb "1")) (Chr (char_in "0" "2")))
 (Alt (Cat (Chr (Ascii.eqb "0")) (Chr (char_in "1" "9")))
      (Chr (char_in "1" "9"))).

(** [%d]: [3[0-1]|[1-2]\d|0[1-9]|[1-9]| [1-9]] *)
Definition re_d : re :=
  Alt (Cat (Chr (Ascii.eqb "3")) (Chr (char_in "0" "1")))
 (Alt (Cat (Chr (char_in "1" "2")) (Chr is_digit))
 (Alt (Cat (Chr (Ascii.eqb "0")) (Chr (char_in "1" "9")))
 (Alt (Chr (char_in "1" "9"))
      (Cat (Chr (Ascii.eqb " ")) (Chr (char_in "1" "9")))))).

(** [s[:n]] *)
Definition take (n : nat) (s : string) : string := substring 0 n s.

(** The groups [Y], [m] and [d] of the match and where it ends. *)
Definition match_Ymd (s : string) : option (string * string * string * nat) :=
  re_match re_Y s (fun s1 =>
  re_match re_m s1 (fun s2 =>
  re_match re_d s2 (fun s3 =>
    Some (take (length s - length s1) s,
          take (length s1 - length s2) s1,
          take (length s2 - length s3) s2,
          length s - length s3)))).

(** [int] of a group: decimal digits, after a space in the last choice
    of [%d]. *)
Fixpoint int_digits (acc : Z) (s : string) : Z :=
  match s with
  | EmptyString => acc
  | String c t =>
      if is_digit c
      then int_digits (10 * acc + (Z.of_N (N_of_ascii c) - 48)) t
      else int_digits acc t
  end.

Definition int (s : string) : Z := int_digits 0 s.

Record date : Type := mkDate { year : Z; month : Z; day : Z }.

Definition is_leap (y : Z) : bool :=
  ((y mod 4 =? 0) && (negb (y mod 100 =? 0) || (y mod 400 =? 0)))%Z.

Definition days_in_month (y m : Z) : Z :=
  if (m =? 2)%Z then (if is_leap y then 29 else 28)%Z
  else if ((m =? 4) || (m =? 6) || (m =? 9) || (m =? 11))%Z then 30%Z
  else 31%Z.

(** [datetime(year, month, day)]: the years 1 to 9999 of the proleptic
    Gregorian calendar. *)
Definition datetime (y m d : Z) : result date :=
  if negb ((1 <=? y) && (y <=? 9999))%Z
  then Raise (ValueError "year is out of range")
  else if negb ((1 <=? m) && (m <=? 12))%Z
  then Raise (ValueError "month must be in 1..12")
  else if negb ((1 <=? d) && (d <=? days_in_month y m))%Z
  then Raise (ValueError "day is out of range for month")
  else Return (mkDate y m d).

Definition strptime_Ymd (data_string : string) : result date :=
  match match_Ymd data_string with
  | None => Raise (ValueError "time data does not match format")
  | Some (Y, m, d, found_end) =>
      if negb (length data_string =? found_end)%nat
      then Raise (ValueError "unconverted data remains")
      else datetime (int Y) (int m) (int d)
  end.

(** A calendar date written [YYYYMMDD]: eight decimal digits, the year not
    0000, the month 01 to 12, the day 01 to the last day of that month. *)
Definition is_calendar_date (s : string) : bool :=
  let y := int (substring 0 4 s) in
  let m := int (substring 4 2 s) in
  let d := int (substring 6 2 s) in
  (length s =? 8)%nat
  && forallb is_digit (list_ascii_of_string s)
  && ((1 <=? y) && (1 <=? m) && (m <=? 12) && (1 <=? d)
      && (d <=? days_in_month y m))%Z.

Definition eight_digits (s : string) : bool :=
  (length s =? 8)%nat && forallb is_digit (list_ascii_of_string s).

(** The part of [match_Ymd] after the year: the groups [m] and [d] and the
    length of what the match leaves over. *)
Definition match_md (rest : string) : option (string * string * nat) :=
  re_match re_m rest (fun s2 =>
  re_match re_d s2 (fun s3 =>
    Some (take (length rest - length s2) rest,
          take (length s2 - length s3) s2,
          length s3))).

Definition digits : list ascii :=
  ["0"; "1"; "2"; "3"; "4"; "5"; "6"; "7"; "8"; "9"]%char.

(** What [match_md] is to do on the four digits [m1 m2 d1 d2]: it takes
    all four, as a month and a day, exactly when they read as a month 01 to
    12 and a day 01 to 31. *)
Definition match_md_ok (m1 m2 d1 d2 : ascii) : bool :=
  let rest := String m1 (String m2 (String d1 (String d2 EmptyString))) in
  let mm := int (String m1 (String m2 EmptyString)) in
  let dd := int (String d1 (String d2 EmptyString)) in
  let in_range := ((1 <=? mm) && (mm <=? 12) && (1 <=? dd) && (dd <=? 31))%Z in
  match match_md rest with
  | Some (m, d, O) => in_range && (int m =? mm)%Z && (int d =? dd)%Z
  | _ => negb in_range
  end.

End Datetime.

(** ** [database.py] *)

Module Database.
Import Datetime.

(** A row of the table [entries]; the columns [scores] and [embedding] hold
    JSON text. *)
Record Entry : Type := mkEntry {
  id : Z;
  text : string;
  cleaned_text : string;
  scores : string;
  sentiment : string;
  date : string;
  cleaned_date : string;
  embedding : string
}.

(** The connection, as far as these queries see it: the rows of [entries]
    in the order a scan of the table yields them. *)
Definition connection : Type := list Entry.

(** [cursor.fetchone()] *)
Definition fetchone {A : Type} (rows : list A) : option A := hd_error rows.

(** [random.randint(a, b)]: the values it draws from, each as likely as
    any other. *)
Definition randint (a b : Z) : list Z :=
  map (fun i => (a + Z.of_nat i)%Z) (seq 0 (Z.to_nat (b - a + 1))).

(** [get_random_entry(conn)] once [random.randint] returned [random_id]. *)
Definition get_random_entry_at {S : Type} `{JsonLoads S}
    (conn : connection) (random_id : Z)
    : result (option (Z * string * S * string)) :=
  match fetchone (filter (fun e => (id e =? random_id)%Z) conn) with
  | Some entry =>
      do scores <- json_loads (scores entry);
      Return (Some (id entry, text entry, scores, sentiment entry))
  | None => Return None
  end.

(** [get_random_entry(conn)]: what it returns for each value
    [random.randint] can draw, in the order of these values. The outcomes
    are equally likely. *)
Definition get_random_entry {S : Type} `{JsonLoads S}
    (conn : connection) : list (result (option (Z * string * S * string))) :=
  let count := Z.of_nat (List.length conn) in
  if (count =? 0)%Z then [Return None]
  else map (get_random_entry_at conn) (randint 1 count).

(** The seven columns an [INSERT] of [add_entries] supplies. *)
Definition new_entry : Type :=
  (string * string * string * string * string * string * string)%type.

(** [cursor.lastrowid] after an [INSERT] into a table whose key is
    [AUTOINCREMENT] and from which nothing was deleted: one more than the
    largest key. *)
Definition next_id (conn : connection) : Z :=
  (1 + fold_right Z.max 0 (map id conn))%Z.

(** [add_entries(conn, entries)]: the table afterwards and the ids. *)
Fixpoint add_entries (conn : connection) (entries : list new_entry)
    : connection * list Z :=
  match entries with
  | [] => (conn, [])
  | (t, ct, sc, se, d, cd, em) :: rest =>
      let lastrowid := next_id conn in
      let '(conn', ids) :=
        add_entries (conn ++ [mkEntry lastrowid t ct sc se d cd em])%list rest in
      (conn', lastrowid :: ids)
  end.

(** [x BETWEEN lo AND hi] on [TEXT] under the collation [BINARY]. *)
Definition between (x lo hi : string) : bool :=
  String.leb lo x && String.leb x hi.

(** [[f(row) for row in rows]] for an [f] that can raise. *)
Fixpoint for_each {A B : Type} (f : A -> result B) (rows : list A)
    : result (list B) :=
  match rows with
  | [] => Return []
  | row :: rest =>
      do b <- f row;
      do bs <- for_each f rest;
      Return (b :: bs)
  end.

(** [sorted(rows, key=key)] on string keys: stable, ascending. *)
Fixpoint insert_sorted {A : Type} (key : A -> string) (x : A) (l : list A)
    : list A :=
  match l with
  | [] => [x]
  | y :: l' =>
      if String.leb (key x) (key y) then x :: l
      else y :: insert_sorted key x l'
  end.

Definition sorted {A : Type} (key : A -> string) (rows : list A) : list A :=
  fold_right (insert_sorted key) [] rows.

(** Ascending order of the keys. *)
Definition key_le {A : Type} (key : A -> string) (x y : A) : Prop :=
  String.leb (key x) (key y) = true.

(** [filter_entries_by_date(conn, start_date, end_date)] *)
Definition filter_entries_by_date {S : Type} `{JsonLoads S}
    (conn : connection) (start_date end_date : string)
    : result (list (Z * string * S * string * string)) :=
  match
    (do start_date_dt <- strptime_Ymd start_date;
     do end_date_dt <- strptime_Ymd end_date;
     Return (start_date_dt, end_date_dt))
  with
  | Raise (ValueError _) =>
      Raise (ValueError "Invalid date format. Please use YYYYMMDD.")
  | Raise e => Raise e
  | Return _ =>
      let rows :=
        filter (fun e => between (cleaned_date e) start_date end_date) conn in
      do rows <- for_each (fun row =>
                   do scores <- json_loads (scores row);
                   Return (id row, text row, scores, sentiment row,
                           cleaned_date row)) rows;
      let sorted_rows := sorted (fun row => snd row) rows in
      Return sorted_rows
  end.

(** SQLite's [LIKE]: ['%'] stands for any run of characters, ['_'] for
    any one character, and a letter of ASCII matches in either case. *)
Definition lower (c : ascii) : ascii :=
  let n := N_of_ascii c in
  if ((65 <=? n) && (n <=? 90))%N then ascii_of_N (n + 32) else c.

Fixpoint like (pattern : string) : string -> bool :=
  match pattern with
  | EmptyString => fun s => match s with EmptyString => true | _ => false end
  | String p pattern' =>
      if Ascii.eqb p "%" then
        fix any (s : string) : bool :=
          like pattern' s
          || match s with
             | EmptyString => false
             | String _ s' => any s'
             end
      else if Ascii.eqb p "_" then
        fun s => match s with
                 | EmptyString => false
                 | String _ s' => like pattern' s'
                 end
      else
        fun s => match s with
                 | EmptyString => false
                 | String c s' => Ascii.eqb (lower p) (lower c) && like pattern' s'
                 end
  end.

(** [search_tweets_by_keyword(conn, keyword)] *)
Definition search_tweets_by_keyword (conn : connection) (keyword : string)
    : list (Z * string) :=
  map (fun e => (id e, text e))
      (filter (fun e => like ("%" ++ keyword ++ "%") (cleaned_text e)) conn).

(** [keyword] occurs in [s], letters of ASCII compared without case. *)
Fixpoint iprefix (w s : string) : bool :=
  match w, s with
  | EmptyString, _ => true
  | String a w', String b s' => Ascii.eqb (lower a) (lower b) && iprefix w' s'
  | String _ _, EmptyString => false
  end.

Fixpoint icontains (w s : string) : bool :=
  iprefix w s
  || match s with
     | EmptyString => false
     | String _ s' => icontains w s'
     end.

(** The row [get_random_entry] returns for the entry [e]. *)
Definition decode_entry {S : Type} `{JsonLoads S} (e : Entry)
    : result (option (Z * string * S * string)) :=
  do scores <- json_loads (scores e);
  Return (Some (id e, text e, scores, sentiment e)).

(** The row [filter_entries_by_date] returns for the entry [e]. *)
Definition decode_dated {S : Type} `{JsonLoads S} (e : Entry)
    : result (Z * string * S * string * string) :=
  do scores <- json_loads (scores e);
  Return (id e, text e, scores, sentiment e, cleaned_date e).

(** [cleaned_date] lies between [lo] and [hi], both included, in the
    lexicographic order of strings. *)
Definition in_range (lo hi : string) (e : Entry) : bool :=
  String.leb lo (cleaned_date e) && String.leb (cleaned_date e) hi.

(** The invariants of a store (the data model): ids are unique, and the
    column [scores] holds the JSON text of a score mapping. *)
Definition scores_are_json {S : Type} `{JsonLoads S} (conn : connection) : Prop :=
  Forall (fun e => exists s : S, json_loads (scores e) = Return s) conn.

Definition store_ok {S : Type} `{JsonLoads S} (conn : connection) : Prop :=
  NoDup (map id conn) /\ scores_are_json conn.

(** The ids in use are exactly 1 to the number of rows. *)
Definition dense (conn : connection) : Prop :=
  Permutation (map id conn) (randint 1 (Z.of_nat (List.length conn))).

End Database.

(** ** [similarity.py] and the route [top_n_similar_texts] of [main.py] *)

Module Similarity.
Import Database.

(** A number, of an embedding or of the column ['similarity']: a finite
    binary64 value, written as the real number it is. This code does no
    arithmetic on numbers: it hands the embeddings to scikit-learn, which
    computes the similarities in binary64, and it lets pandas compare
    them; finite binary64 values compare as the real numbers they are. *)
Definition Embedding : Type := list R.

(** The model, as far as this code uses it: [model.encode]. *)
Record SentenceTransformer : Type := {
  encode : string -> Embedding
}.

(** The frame [top_n_similar_texts] builds, by row: the columns ['text']
    and ['embedding']. *)
Definition Frame : Type := list (string * Embedding).

(** scikit-learn, as far as this code relies on it: the numbers
    [cosine_similarity([x], Y).flatten()] holds for arrays it accepts, one
    for each row of [Y]. They are the cosines of the angles between [x] and
    the rows as the library computes them, in binary64 and in an order of
    operations of its own; which numbers they are is left open here. *)
Class Sklearn : Type := {
  pairwise_cosine : Embedding -> list Embedding -> list R;
  pairwise_cosine_length :
    forall (x : Embedding) (Y : list Embedding),
      List.length (pairwise_cosine x Y) = List.length Y
}.

(** pandas, as far as it is not determined: the rows in the order of
    [sort_values(ascending=False)] on a column, with the default
    [kind='quicksort']. The values descend; the order of rows with equal
    values is the library's. *)
Class Pandas : Type := {
  sort_values : forall {A : Type}, (A -> R) -> list A -> list A;
  sort_values_perm :
    forall (A : Type) (column : A -> R) (rows : list A),
      Permutation (sort_values column rows) rows;
  sort_values_sorted :
    forall (A : Type) (column : A -> R) (rows : list A),
      StronglySorted (fun a b => (column b <= column a)%R)
        (sort_values column rows)
}.

(** [np.vstack(rows)] raises on no row and on rows of different lengths. *)
Definition vstack (rows : list Embedding) : result (list Embedding) :=
  match rows with
  | [] => Raise (ValueError "need at least one array to concatenate")
  | first :: _ =>
      if forallb (fun r => (List.length r =? List.length first)%nat) rows
      then Return rows
      else Raise (ValueError "all the input array dimensions must match")
  end.

(** [cosine_similarity([x], Y).flatten()] raises when the rows of [Y] are
    not as long as [x], and when they hold no number. *)
Definition cosine_similarity `{Sklearn} (x : Embedding) (Y : list Embedding)
    : result (list R) :=
  if (List.length x =? 0)%nat
  then Raise (ValueError "Found array with 0 feature(s)")
  else if forallb (fun y => (List.length y =? List.length x)%nat) Y
  then Return (pairwise_cosine x Y)
  else Raise (ValueError "Incompatible dimension for X and Y matrices").

(** A stable sort in descending order: a row goes before the rows it is at
    least as similar as, and it came first. *)
Fixpoint insert_desc {A : Type} (similarity : A -> R) (x : A) (l : list A)
    : list A :=
  match l with
  | [] => [x]
  | y :: l' =>
      if Rle_dec (similarity y) (similarity x) then x :: l
      else y :: insert_desc similarity x l'
  end.

Definition sort_desc {A : Type} (similarity : A -> R) (rows : list A)
    : list A :=
  fold_right (insert_desc similarity) [] rows.

(** [df.nlargest(n, column)] with the default [keep='first']: no row for
    an [n] below 1; for an [n] of the number of rows or more,
    [sort_values(ascending=False).head(n)]; else the first [n] rows in
    descending order of the column, rows with equal values in the order of
    the frame (the selection sorts its candidates with a stable sort). *)
Definition nlargest `{Pandas} {A : Type} (n : Z) (column : A -> R)
    (df : list A) : list A :=
  if (n <=? 0)%Z then []
  else if (Z.of_nat (List.length df) <=? n)%Z
  then firstn (Z.to_nat n) (sort_values column df)
  else firstn (Z.to_nat n) (sort_desc column df).

(** [get_top_n_similar_texts(df, input_text, top_n, model)] *)
Definition get_top_n_similar_texts `{Sklearn} `{Pandas} (df : Frame)
    (input_text : string) (top_n : Z) (model : SentenceTransformer)
    : result (list string) :=
  let input_embedding := encode model input_text in
  do embeddings_matrix <- vstack (map snd df);
  do similarities <- cosine_similarity input_embedding embeddings_matrix;
  let df := combine df similarities in
  let most_similar_texts :=
    map (fun row => fst (fst row)) (nlargest top_n snd df) in
  Return most_similar_texts.

(** [top_n_similar_texts(id, top_n)]; the parameter [top_n] is declared
    [Query(..., ge=1)]. An [id] outside the 64-bit integers cannot be
    bound to the query: [sqlite3] raises [OverflowError], and the server
    answers with the status 500. *)
Definition top_n_similar_texts `{Sklearn} `{Pandas} `{JsonLoads Embedding}
    (conn : connection) (model : SentenceTransformer) (id : Z) (top_n : Z)
    : result (list string) :=
  if (top_n <? 1)%Z
  then Raise (HTTPException 422 "Input should be greater than or equal to 1")
  else if ((id <? - 2 ^ 63) || (2 ^ 63 <=? id))%Z
  then Raise (HTTPException 500 "Internal Server Error")
  else
    match fetchone (filter (fun e => (Database.id e =? id)%Z) conn) with
    | None => Raise (HTTPException 404 "Text not found for the given ID")
    | Some row =>
        let text_to_compare := cleaned_text row in
        let all_texts :=
          map (fun e => (text e, embedding e))
              (filter (fun e => negb (Database.id e =? id)%Z) conn) in
        do df <- for_each (fun row =>
                   do embedding <- json_loads (snd row);
                   Return (fst row, embedding)) all_texts;
        get_top_n_similar_texts df text_to_compare top_n model
    end.

(** JSON at lists of numbers, for the texts that are arrays of unsigned
    integers, as in [[1, 0]]. *)
Fixpoint loads_ints (acc : option Z) (s : string) : option (list Z) :=
  match s with
  | EmptyString => None
  | String c t =>
      if Datetime.is_digit c then
        loads_ints
          (Some (10 * match acc with Some n => n | None => 0 end
                 + (Z.of_N (N_of_ascii c) - 48))%Z) t
      else if Ascii.eqb c " " then
        match acc with
        | None => loads_ints None t
        | Some _ => None
        end
      else if Ascii.eqb c "," then
        match acc with
        | Some n => option_map (cons n) (loads_ints None t)
        | None => None
        end
      else if Ascii.eqb c "]" then
        match acc, t with
        | Some n, EmptyString => Some [n]
        | _, _ => None
        end
      else None
  end.

#[export] Instance json_int_array : JsonLoads Embedding := {
  json_loads := fun s =>
    match s with
    | String "[" t =>
        if String.eqb t "]" then Return []
        else match loads_ints None t with
             | Some l => Return (map IZR l)
             | None => Raise JSONDecodeError
             end
    | _ => Raise JSONDecodeError
    end
}.

(** The frame with its column ['similarity']. *)
Definition with_similarity `{Sklearn} (model : SentenceTransformer)
    (input_text : string) (df : Frame) : list (string * Embedding * R) :=
  combine df (pairwise_cosine (encode model input_text) (map snd df)).

(** The order of the ranking on numbered rows: more similar first, of
    equally similar rows the one with the smaller number first. *)
Definition ranks_before {A : Type} (sim : A -> R) (x y : nat * A) : Prop :=
  (sim (snd y) < sim (snd x))%R
  \/ (sim (snd x) = sim (snd y) /\ (fst x < fst y)%nat).

(** A similarity of rows, on numbered rows. *)
Definition by_snd {A : Type} (sim : A -> R) (x : nat * A) : R := sim (snd x).

(** The rows of a frame with their positions. *)
Definition numbered {A : Type} (df : list A) : list (nat * A) :=
  combine (seq 0 (List.length df)) df.

(** The invariant of the embeddings (the data model): every stored
    embedding has the length of the model's output, and that is not 0. *)
Definition well_shaped (model : SentenceTransformer) (input_text : string)
    (df : Frame) : Prop :=
  List.length (encode model input_text) <> 0%nat
  /\ Forall (fun row =>
              List.length (snd row) = List.length (encode model input_text)) df.

(** *** Libraries for the examples *)

(** The cosine similarity of its definition, the dot product of the two
    vectors divided by their Euclidean norms (a norm of 0 counts as 1),
    over exact numbers: what a library without rounding would compute. *)
Definition dot (x y : Embedding) : R :=
  fold_right Rplus 0%R (map (fun ab => (fst ab * snd ab)%R) (combine x y)).

Definition normalize (x : Embedding) : Embedding :=
  let norm := sqrt (dot x x) in
  let norm := if Req_dec_T norm 0%R then 1%R else norm in
  map (fun a => (a / norm)%R) x.

Definition cosine (x y : Embedding) : R := dot (normalize x) (normalize y).

Definition exact_sklearn : Sklearn := {|
  pairwise_cosine := fun x Y => map (cosine x) Y;
  pairwise_cosine_length := fun x Y => length_map (cosine x) Y
|}.

(** A pandas whose [sort_values] is stable. *)
Definition stable_pandas : Pandas.
Proof.
  refine {| sort_values := fun A column rows => sort_desc column rows |}.
  - intros A column rows. induction rows as [|x rows IH]; [constructor|].
    cbn [sort_desc fold_right]. fold (sort_desc column rows).
    apply Permutation_trans with (x :: sort_desc column rows);
      [|now constructor].
    generalize (sort_desc column rows) as l. clear.
    induction l as [|y l IHl]; cbn [insert_desc]; [reflexivity|].
    destruct (Rle_dec (column y) (column x)); [reflexivity|].
    apply Permutation_trans with (y :: x :: l);
      [now constructor|apply perm_swap].
  - intros A column rows. induction rows as [|x rows IH]; [constructor|].
    cbn [sort_desc fold_right]. fold (sort_desc column rows).
    revert IH. generalize (sort_desc column rows) as l. clear.
    induction l as [|y l IHl]; intros Hs; cbn [insert_desc].
    + repeat constructor.
    + inversion Hs as [|? ? Hl Hy]; subst.
      destruct (Rle_dec (column y) (column x)) as [E|E].
      * constructor; [exact Hs|]. constructor; [exact E|].
        eapply Forall_impl; [|exact Hy]. intros z Hz.
        cbv beta in Hz. lra.
      * constructor; [now apply IHl|].
        assert (P : Permutation (insert_desc column x l) (x :: l)).
        { clear. induction l as [|z l IHl]; cbn [insert_desc]; [reflexivity|].
          destruct (Rle_dec (column z) (column x)); [reflexivity|].
          apply Permutation_trans with (z :: x :: l);
            [now constructor|apply perm_swap]. }
        apply (Permutation_Forall (Permutation_sym P)).
        constructor; [lra|exact Hy].
Defined.

(** A pandas whose [sort_values] puts rows with equal values in the
    reverse of their order in the frame. *)
Definition reversing_pandas : Pandas.
Proof.
  refine {| sort_values := fun A column rows => sort_desc column (rev rows) |}.
  - intros A column rows.
    apply Permutation_trans with (rev rows);
      [|apply Permutation_sym, Permutation_rev].
    apply (@sort_values_perm stable_pandas).
  - intros A column rows. apply (@sort_values_sorted stable_pandas).
Defined.

End Similarity.

(** ** [database.py]: the table and the word counts *)

Module DatabaseQueries.
Import Preprocess Database.

(** The database file, as far as [create_table] sees it: [None] while it
    holds no table [entries], else the rows of the table. *)
Definition database : Type := option connection.

(** [create_table(conn)]: the database afterwards and [table_existed]. *)
Definition create_table (db : database) : database * bool :=
  match db with
  | Some _ => (db, true)
  | None => (Some [], false)
  end.

(** The row an [INSERT] of [add_entries] stores for [entry] under the key
    [rowid]. *)
Definition row_of (rowid : Z) (entry : new_entry) : Entry :=
  let '(t, ct, sc, se, d, cd, em) := entry in
  mkEntry rowid t ct sc se d cd em.

(** A date written without leading zeros, as in [201811]: four digits of
    a year that is not 0000, a month 1 to 9 and a day 1 to 9. *)
Definition short_date (s : string) : bool :=
  match s with
  | String y1 (String y2 (String y3 (String y4
      (String m (String d EmptyString))))) =>
      Datetime.is_digit y1 && Datetime.is_digit y2
      && Datetime.is_digit y3 && Datetime.is_digit y4
      && Datetime.char_in "1" "9" m && Datetime.char_in "1" "9" d
      && (1 <=? Datetime.int (substring 0 4 s))%Z
  | _ => false
  end.

(** [get_all_entries(conn)]: [SELECT * FROM entries]. *)
Definition get_all_entries (conn : connection) : list Entry := conn.

(** [str.lower()] on code points below 256: the letters of ASCII and the
    capital letters of Latin-1 (192 to 222, but the sign 215) move up by
    32. *)
Definition lower_char (c : ascii) : ascii :=
  let n := N_of_ascii c in
  if (((65 <=? n) && (n <=? 90)) || ((192 <=? n) && (n <=? 214))
      || ((216 <=? n) && (n <=? 222)))%N
  then ascii_of_N (n + 32) else c.

Fixpoint str_lower (s : string) : string :=
  match s with
  | EmptyString => EmptyString
  | String c t => String (lower_char c) (str_lower t)
  end.

(** [sep.join(texts)] *)
Fixpoint join (sep : string) (texts : list string) : string :=
  match texts with
  | [] => EmptyString
  | x :: rest =>
      match rest with
      | [] => x
      | _ :: _ => x ++ sep ++ join sep rest
      end
  end.

(** [\b\w+\b]: at a word character that no word character precedes, the
    run of word characters that starts there (the run is greedy, and a
    boundary follows it). *)
Definition word : matcher := fun prev s =>
  let run :=
    match run_length is_word s with
    | O => None
    | S k => Some (S k)
    end in
  match prev with
  | Some p => if is_word p then None else run
  | None => run
  end.

(** [re.findall(pattern, s)] for a pattern without groups that matches no
    empty string: the matches, from the left, the scan resuming after each
    one. [skip] counts the characters of the current match that are still
    to be passed over. *)
Fixpoint re_findall_from (m : matcher) (prev : option ascii) (skip : nat)
    (s : string) : list string :=
  match s with
  | EmptyString => []
  | String c t =>
      match skip with
      | S k => re_findall_from m (Some c) k t
      | O =>
          match m prev s with
          | Some (S k) => substring 0 (S k) s :: re_findall_from m (Some c) k t
          | _ => re_findall_from m (Some c) 0 t
          end
      end
  end.

Definition re_findall (m : matcher) (s : string) : list string :=
  re_findall_from m None 0 s.

(** A [dict] with [str] keys: the items in the order of insertion.
    [dict_set] is [d[k] = v]: a key that is there keeps its place. *)
Fixpoint dict_set {V : Type} (k : string) (v : V) (d : list (string * V))
    : list (string * V) :=
  match d with
  | [] => [(k, v)]
  | (k', v') :: rest =>
      if String.eqb k' k then (k', v) :: rest
      else (k', v') :: dict_set k v rest
  end.

(** [d.get(k, default)] *)
Fixpoint dict_get {V : Type} (k : string) (default : V)
    (d : list (string * V)) : V :=
  match d with
  | [] => default
  | (k', v') :: rest => if String.eqb k' k then v' else dict_get k default rest
  end.

(** [dict(items)] *)
Definition dict {V : Type} (items : list (string * V)) : list (string * V) :=
  fold_left (fun d kv => dict_set (fst kv) (snd kv) d) items [].

(** [Counter(words)]: for each word in turn,
    [self[elem] = self.get(elem, 0) + 1]. *)
Definition Counter (words : list string) : list (string * nat) :=
  fold_left (fun d w => dict_set w (dict_get w 0 d + 1) d) words [].

(** [sorted(items, key=key, reverse=True)] on integer keys: descending,
    and stable, items with equal keys keep their order. *)
Fixpoint insert_reverse {A : Type} (key : A -> nat) (x : A) (l : list A)
    : list A :=
  match l with
  | [] => [x]
  | y :: l' =>
      if (key y <=? key x)%nat then x :: l
      else y :: insert_reverse key x l'
  end.

Definition sorted_reverse {A : Type} (key : A -> nat) (items : list A)
    : list A :=
  fold_right (insert_reverse key) [] items.

(** [get_word_counts_db(conn)] *)
Definition get_word_counts_db (conn : connection) : list (string * nat) :=
  let rows := map cleaned_text conn in
  let all_texts := join " " rows in
  let words := re_findall word (str_lower all_texts) in
  let word_counts := Counter words in
  let sorted_word_counts := dict (sorted_reverse snd word_counts) in
  sorted_word_counts.

(** The words of one text: its runs of word characters, in lower case. *)
Definition words_of (s : string) : list string :=
  re_findall word (str_lower s).

(** The words of the table, row by row. *)
Definition all_words (conn : connection) : list string :=
  flat_map words_of (map cleaned_text conn).

(** The distinct words of a list, in the order of their first
    occurrences. *)
Definition first_seen (words : list string) : list string :=
  rev (nodup string_dec (rev words)).

(** Every character of [s] satisfies [p]. *)
Fixpoint all_chars (p : ascii -> bool) (s : string) : bool :=
  match s with
  | EmptyString => true
  | String c t => p c && all_chars p t
  end.

(** The character is not one that [str.lower] changes. *)
Definition is_lower (c : ascii) : bool := Ascii.eqb (lower_char c) c.

End DatabaseQueries.

(** ** The other routes of [main.py] *)

Module Routes.
Import DatabaseQueries.

(** The response model [Entry]. *)
Record Entry (S : Type) : Type := mkEntry {
  text : string;
  scores : S;
  sentiment : string
}.

Arguments mkEntry {S} text scores sentiment.
Arguments text {S} e.
Arguments scores {S} e.
Arguments sentiment {S} e.

(** pydantic, at the field [scores: Dict[str, float]] of [Entry]: the
    validation of a decoded JSON value of type [S], which returns the
    mapping, of type [D], or raises [ValidationError], a [ValueError], on a
    value of another shape. *)
Class Validates (S D : Type) : Type := {
  validate_scores : S -> result D
}.

(** [Entry(text=text, scores=scores, sentiment=sentiment)] on the strings
    of a row and a decoded JSON value. *)
Definition new_Entry {S D : Type} `{Validates S D}
    (text : string) (scores : S) (sentiment : string) : result (Entry D) :=
  do scores <- validate_scores scores;
  Return (mkEntry text scores sentiment).

(** [lifespan(app)] up to its [yield], on the database. [entries_data] is
    what the block under [if not entries_table_exists] has computed from
    the file of tweets when it calls [add_entries], or the exception the
    block raises before that. *)
Definition lifespan (db : database)
    (entries_data : result (list Database.new_entry))
    : database * result unit :=
  let '(db, entries_table_exists) := create_table db in
  if negb entries_table_exists then
    match entries_data with
    | Return entries_data =>
        (option_map (fun conn => fst (Database.add_entries conn entries_data)) db,
         Return tt)
    | Raise e => (db, Raise e)
    end
  else (db, Return tt).


(** [read_entries()] *)
Definition read_entries {S D : Type} `{JsonLoads S} `{Validates S D}
    (conn : Database.connection) : result (list (Entry D)) :=
  let rows := get_all_entries conn in
  Database.for_each (fun row =>
      do scores <- json_loads (Database.scores row);
      new_Entry (Database.text row) scores (Database.sentiment row))
    rows.

(** [get_entries_by_id(start_id, end_id)], both declared [Query(..., ge=1)];
    a row of the answer holds ['id'], ['text'] and ['sentiment']. An
    integer from 2^63 on cannot be bound to the query: [sqlite3] raises
    [OverflowError], and the server answers with the status 500. *)
Definition get_entries_by_id (conn : Database.connection)
    (start_id end_id : Z) : result (list (Z * string * string)) :=
  if ((start_id <? 1) || (end_id <? 1))%Z
  then Raise (HTTPException 422 "Input should be greater than or equal to 1")
  else if ((2 ^ 63 <=? start_id) || (2 ^ 63 <=? end_id))%Z
  then Raise (HTTPException 500 "Internal Server Error")
  else
    let rows :=
      filter (fun e => ((start_id <=? Database.id e)
                        && (Database.id e <=? end_id))%Z) conn in
    let entries :=
      map (fun row => (Database.id row, Database.text row,
                       Database.sentiment row)) rows in
    Return entries.

End Routes.

(** ** [Frontend/main.py]: the top words *)

Module Frontend.
Import DatabaseQueries.

(** What the page writes under "Top N Words in Tweets". *)
Inductive shown : Type :=
| TopWords (items : list (string * nat))
| NoWordsFound
| EnterPositiveNumber.

(** The handler of the button "Get Top Words", once the route
    [/word_counts/] answered with [word_counts]; the answer is a JSON
    object, whose members come in the order of the dictionary. *)
Definition top_words (n : Z) (word_counts : list (string * nat)) : shown :=
  if (n >? 0)%Z then
    match word_counts with
    | [] => NoWordsFound
    | _ :: _ =>
        TopWords
          (dict (firstn (Z.to_nat n) (sorted_reverse snd word_counts)))
    end
  else EnterPositiveNumber.

End Frontend.
(** * Properties *)

(** ** The text normalizer *)

Module PreprocessFacts.
Import Preprocess.

(** A pattern that matches nowhere leaves the text as it is. *)
Lemma re_sub_from_no_match (m : matcher) (repl : string) (s : string) :
  forall prev, has_match m prev s = false -> re_sub_from m repl prev 0 s = s.
Proof.
  induction s as [|c t IH]; intros prev H; simpl in *; [reflexivity|].
  destruct (m prev (String c t)) as [[|k]|]; try discriminate;
    now rewrite IH.
Qed.

Lemma re_sub_no_match (m : matcher) (repl s : string) :
  has_match m None s = false -> re_sub m repl s = s.
Proof. apply re_sub_from_no_match. Qed.

Lemma no_hash_no_boundary_hash (s : string) :
  forall prev, contains_char "#" s = false -> has_match boundary_hash prev s = false.
Proof.
  induction s as [|c t IH]; intros prev H; simpl in *; [reflexivity|].
  apply orb_false_iff in H as [Hc Ht].
  rewrite (IH _ Ht).
  destruct c as [[] [] [] [] [] [] [] []]; try reflexivity; discriminate.
Qed.

Lemma re_sub_spaces_collapse (s : string) :
  forall prev,
    re_sub_from spaces " " prev (run_length is_space s) s = collapse_from true s
    /\ re_sub_from spaces " " prev 0 s = collapse_from false s.
Proof.
  induction s as [|c t IH]; intros prev; [split; reflexivity|].
  destruct (IH (Some c)) as [IH1 IH2].
  unfold spaces in *.
  cbn [run_length collapse_from re_sub_from].
  destruct (is_space c) eqn:Hc.
  - split; [exact IH1|]. now rewrite IH1.
  - now rewrite IH2.
Qed.

Lemma collapse_true_head (s : string) :
  next_is is_space (collapse_from true s) = false.
Proof.
  induction s as [|c t IH]; [reflexivity|].
  simpl. destruct (is_space c) eqn:Hc; [exact IH|]. simpl. exact Hc.
Qed.

Lemma collapse_single_spaced (s : string) :
  forall b, single_spaced (collapse_from b s) = true.
Proof.
  induction s as [|c t IH]; intros b; [reflexivity|].
  simpl. destruct (is_space c) eqn:Hc.
  - destruct b; [apply IH|].
    simpl. now rewrite collapse_true_head, IH.
  - simpl. now rewrite Hc, IH.
Qed.

Lemma single_spaced_lstrip (s : string) :
  single_spaced s = true -> single_spaced (lstrip s) = true.
Proof.
  induction s as [|c t IH]; [reflexivity|].
  intros H. simpl. destruct (is_space c) eqn:Hc; [|exact H].
  apply IH. simpl in H. now apply andb_true_iff in H.
Qed.

Lemma lstrip_head (s : string) : next_is is_space (lstrip s) = false.
Proof.
  induction s as [|c t IH]; [reflexivity|].
  simpl. destruct (is_space c) eqn:Hc; [exact IH|]. simpl. exact Hc.
Qed.

Lemma rstrip_head (p : ascii -> bool) (s : string) :
  rstrip s <> "" -> next_is p (rstrip s) = next_is p s.
Proof.
  destruct s as [|c t]; [reflexivity|].
  simpl. destruct (rstrip t); [destruct (is_space c)|]; simpl; congruence.
Qed.

Lemma rstrip_head_false (p : ascii -> bool) (s : string) :
  next_is p s = false -> next_is p (rstrip s) = false.
Proof.
  intros H. destruct (string_dec (rstrip s) "") as [E|E].
  - now rewrite E.
  - now rewrite rstrip_head.
Qed.

Lemma single_spaced_rstrip (s : string) :
  single_spaced s = true -> single_spaced (rstrip s) = true.
Proof.
  induction s as [|c t IH]; [reflexivity|].
  simpl. intros H. apply andb_true_iff in H as [Hc Ht].
  specialize (IH Ht).
  destruct (rstrip t) as [|c' t'] eqn:E.
  - destruct (is_space c) eqn:Hs; [reflexivity|]. simpl. now rewrite Hs.
  - change (single_spaced (String c (String c' t')) = true).
    cbn [single_spaced]. cbn [single_spaced] in IH. rewrite IH, andb_true_r.
    destruct (is_space c); [|reflexivity].
    apply andb_true_iff in Hc as [Hc Hn]. rewrite Hc. simpl.
    assert (R : rstrip t <> "") by (rewrite E; discriminate).
    pose proof (rstrip_head is_space t R) as Hh. rewrite E in Hh. simpl in Hh.
    now rewrite Hh.
Qed.

Lemma rstrip_idempotent (s : string) : rstrip (rstrip s) = rstrip s.
Proof.
  induction s as [|c t IH]; [reflexivity|].
  simpl. destruct (rstrip t) as [|c' t'] eqn:E.
  - destruct (is_space c) eqn:Hc; [reflexivity|]. simpl. now rewrite Hc.
  - change (rstrip (String c (String c' t')) = String c (String c' t')).
    cbn [rstrip]. cbn [rstrip] in IH. now rewrite IH.
Qed.

Lemma lstrip_fixed (s : string) : next_is is_space s = false -> lstrip s = s.
Proof. destruct s as [|c t]; [reflexivity|]. simpl. now intros ->. Qed.

Lemma strip_strip (s : string) : strip (strip s) = strip s.
Proof.
  unfold strip.
  rewrite (lstrip_fixed (rstrip (lstrip s))).
  - apply rstrip_idempotent.
  - apply rstrip_head_false, lstrip_head.
Qed.

Lemma single_spaced_no_newline (s : string) :
  single_spaced s = true -> replace_newlines s = s.
Proof.
  induction s as [|c t IH]; [reflexivity|].
  simpl. intros H. apply andb_true_iff in H as [Hc Ht].
  rewrite (IH Ht). f_equal.
  destruct (Ascii.eqb c newline) eqn:E; [|reflexivity].
  apply Ascii.eqb_eq in E. subst c. discriminate.
Qed.

Lemma collapse_fixed (s : string) :
  single_spaced s = true ->
  collapse_from false s = s
  /\ (next_is is_space s = false -> collapse_from true s = s).
Proof.
  induction s as [|c t IH]; [split; reflexivity|].
  simpl. intros H. apply andb_true_iff in H as [Hc Ht].
  destruct (IH Ht) as [IH1 IH2].
  destruct (is_space c) eqn:Hs.
  - apply andb_true_iff in Hc as [Hc Hn].
    apply Ascii.eqb_eq in Hc. apply negb_true_iff in Hn.
    split; [|discriminate]. now rewrite IH2, Hc.
  - now rewrite IH1.
Qed.

(** The white-space steps reach a fixed point in one application. *)
Lemma whitespace_steps_fixed (z : string) :
  let y := strip (re_sub spaces " " z) in
  strip (re_sub spaces " " (replace_newlines y)) = y.
Proof.
  intros y.
  assert (Hy : single_spaced y = true).
  { unfold y, strip, re_sub.
    rewrite (proj2 (re_sub_spaces_collapse z None)).
    apply single_spaced_rstrip, single_spaced_lstrip, collapse_single_spaced. }
  rewrite (single_spaced_no_newline _ Hy).
  unfold re_sub at 1. rewrite (proj2 (re_sub_spaces_collapse y None)).
  rewrite (proj1 (collapse_fixed y Hy)).
  apply strip_strip.
Qed.

(** What [re.sub(r'\b#', '', s)] does, character by character: a ['#'] is
    dropped exactly when the character before it is a word character. *)
Lemma re_sub_boundary_hash_cons (prev : option ascii) (c : ascii) (t : string) :
  re_sub_from boundary_hash "" prev 0 (String c t) =
  if Ascii.eqb c "#" && match prev with Some p => is_word p | None => false end
  then re_sub_from boundary_hash "" (Some c) 0 t
  else String c (re_sub_from boundary_hash "" (Some c) 0 t).
Proof.
  destruct (Ascii.eqb c "#") eqn:E.
  - apply Ascii.eqb_eq in E. subst c. simpl.
    destruct prev as [p|]; [destruct (is_word p)|]; reflexivity.
  - assert (N : boundary_hash prev (String c t) = None).
    { unfold boundary_hash.
      destruct c as [[] [] [] [] [] [] [] []]; try reflexivity; discriminate. }
    cbn [re_sub_from andb]. now rewrite N.
Qed.

(** *** No mention is left in a cleaned text *)

Lemma run_length_next_is (p : ascii -> bool) (s : string) :
  run_length p s = 0 <-> next_is p s = false.
Proof.
  destruct s as [|c t]; simpl; [tauto|].
  destruct (p c); split; congruence.
Qed.

Lemma mention_cases (prev : option ascii) (c : ascii) (t : string) :
  mention prev (String c t)
  = if Ascii.eqb c "@" && next_is is_word t
    then Some (S (run_length is_word t))
    else None.
Proof.
  destruct (Ascii.eqb c "@") eqn:E.
  - apply Ascii.eqb_eq in E. subst c. simpl.
    destruct (run_length is_word t) eqn:R.
    + apply run_length_next_is in R. now rewrite R.
    + destruct (next_is is_word t) eqn:N; [reflexivity|].
      apply run_length_next_is in N. congruence.
  - unfold mention. simpl.
    destruct c as [[] [] [] [] [] [] [] []]; try reflexivity; discriminate.
Qed.

Lemma contains_mention_at_then_word (s : string) :
  forall prev, has_match mention prev s = at_then_word s.
Proof.
  induction s as [|c t IH]; intros prev; [reflexivity|].
  cbn [has_match at_then_word]. rewrite mention_cases, IH.
  now destruct (Ascii.eqb c "@" && next_is is_word t).
Qed.

Lemma at_then_word_tail (c : ascii) (t : string) :
  at_then_word (String c t) = false ->
  at_then_word t = false /\ (c = "@"%char -> next_is is_word t = false).
Proof.
  simpl. intros H. apply orb_false_iff in H as [H1 H2]. split; [exact H2|].
  intros ->. exact H1.
Qed.

Lemma at_then_word_cons (c : ascii) (t : string) :
  at_then_word t = false ->
  (c = "@"%char -> next_is is_word t = false) ->
  at_then_word (String c t) = false.
Proof.
  intros H1 H2. simpl. rewrite H1, orb_false_r.
  destruct (Ascii.eqb c "@") eqn:E; [|reflexivity].
  apply Ascii.eqb_eq in E. now rewrite (H2 E).
Qed.

Lemma remove_mentions_invariant (s : string) :
  forall prev,
    at_then_word (re_sub_from mention "" prev 0 s) = false
    /\ (at_then_word (re_sub_from mention "" prev (run_length is_word s) s) = false
        /\ next_is is_word
             (re_sub_from mention "" prev (run_length is_word s) s) = false)
    /\ (next_is is_word s = false ->
        next_is is_word (re_sub_from mention "" prev 0 s) = false).
Proof.
  induction s as [|c t IH]; intros prev; [repeat split; reflexivity|].
  destruct (IH (Some c)) as [A [[B1 B2] C]].
  assert (A' : at_then_word (re_sub_from mention "" prev 0 (String c t)) = false).
  { cbn [re_sub_from]. rewrite mention_cases.
    destruct (Ascii.eqb c "@" && next_is is_word t) eqn:E.
    - exact B1.
    - apply at_then_word_cons; [exact A|].
      intros ->. simpl in E. now apply C. }
  assert (C' : next_is is_word (String c t) = false ->
               next_is is_word (re_sub_from mention "" prev 0 (String c t)) = false).
  { intros N. cbn [re_sub_from]. rewrite mention_cases.
    destruct (Ascii.eqb c "@" && next_is is_word t); [exact B2|exact N]. }
  split; [exact A'|]. split; [|exact C'].
  cbn [run_length]. destruct (is_word c) eqn:W.
  - cbn [re_sub_from]. now split.
  - split; [exact A'|]. apply C'. exact W.
Qed.

Lemma remove_mentions_clean (s : string) :
  at_then_word (remove_mentions s) = false.
Proof. apply remove_mentions_invariant. Qed.

Lemma prefix_cons (a : ascii) (p s : string) :
  prefix (String a p) s = true ->
  exists t, s = String a t /\ prefix p t = true.
Proof.
  destruct s as [|c t]; simpl; [discriminate|].
  destruct (ascii_dec a c) as [->|]; [|discriminate].
  intros H. now exists t.
Qed.

Ltac prefix_inv H :=
  repeat (let t := fresh "t" in
          apply prefix_cons in H as [t [-> H]]).

Lemma url_cases (prev : option ascii) (s : string) (n : nat) :
  url prev s = Some n ->
  n = run_length not_space s /\ next_is is_word s = true.
Proof.
  unfold url.
  destruct (prefix "https://" s) eqn:P8.
  - prefix_inv P8.
    cbn [drop]. destruct (run_length not_space _) eqn:R; [discriminate|].
    intros H. injection H as <-. cbn. now rewrite R.
  - destruct (prefix "http://" s) eqn:P7; [|discriminate].
    prefix_inv P7.
    cbn [drop]. destruct (run_length not_space _) eqn:R; [discriminate|].
    intros H. injection H as <-. cbn. now rewrite R.
Qed.

Lemma remove_urls_invariant (s : string) :
  forall prev,
    at_then_word s = false ->
    at_then_word (re_sub_from url "" prev 0 s) = false
    /\ at_then_word (re_sub_from url "" prev (run_length not_space s) s) = false
    /\ (next_is is_word s = false ->
        next_is is_word (re_sub_from url "" prev 0 s) = false).
Proof.
  induction s as [|c t IH]; intros prev Q; [repeat split; reflexivity|].
  destruct (at_then_word_tail c t Q) as [Qt Qc].
  destruct (IH (Some c) Qt) as [A [B C]].
  assert (A' : at_then_word (re_sub_from url "" prev 0 (String c t)) = false
               /\ (next_is is_word (String c t) = false ->
                   next_is is_word (re_sub_from url "" prev 0 (String c t)) = false)).
  { cbn [re_sub_from].
    destruct (url prev (String c t)) as [[|k]|] eqn:U.
    - split; [|now intros].
      apply at_then_word_cons; [exact A|]. intros E. apply C. now apply Qc.
    - destruct (url_cases _ _ _ U) as [L W]. cbn [run_length] in L.
      destruct (not_space c); [|discriminate]. injection L as ->.
      split; [exact B|]. intros N. simpl in W, N. congruence.
    - split; [|now intros].
      apply at_then_word_cons; [exact A|]. intros E. apply C. now apply Qc. }
  destruct A' as [A' C']. split; [exact A'|]. split; [|exact C'].
  cbn [run_length]. destruct (not_space c); [exact B|exact A'].
Qed.

Lemma remove_urls_clean (s : string) :
  at_then_word s = false -> at_then_word (remove_urls s) = false.
Proof. intros Q. now apply remove_urls_invariant. Qed.

Lemma drop_clean (n : nat) :
  forall s, at_then_word s = false -> at_then_word (drop n s) = false.
Proof.
  induction n as [|n IH]; intros [|c t] Q; simpl; try exact Q.
  apply IH. now apply (at_then_word_tail c t).
Qed.

Lemma remove_rt_clean (s : string) :
  at_then_word s = false -> at_then_word (remove_rt s) = false.
Proof.
  intros Q. unfold remove_rt.
  destruct (startswith s "RT : "); [now apply drop_clean|exact Q].
Qed.

Lemma remove_hash_invariant (s : string) :
  forall prev,
    at_then_word s = false ->
    at_then_word (re_sub_from boundary_hash "" prev 0 s) = false
    /\ (next_is is_word s = false ->
        next_is is_word (re_sub_from boundary_hash "" (Some "@"%char) 0 s) = false).
Proof.
  induction s as [|c t IH]; intros prev Q; [split; reflexivity|].
  destruct (at_then_word_tail c t Q) as [Qt Qc].
  destruct (IH (Some c) Qt) as [A C].
  split.
  - rewrite re_sub_boundary_hash_cons.
    destruct (_ && _); [exact A|].
    apply at_then_word_cons; [exact A|].
    intros ->. apply C. now apply Qc.
  - intros N. rewrite re_sub_boundary_hash_cons.
    change (is_word "@") with false. rewrite andb_false_r. exact N.
Qed.

Lemma remove_hash_clean (s : string) :
  at_then_word s = false -> at_then_word (remove_hash s) = false.
Proof. intros Q. now apply remove_hash_invariant. Qed.

Lemma replace_newlines_head (s : string) :
  next_is is_word (replace_newlines s) = next_is is_word s.
Proof.
  destruct s as [|c t]; [reflexivity|]. simpl.
  destruct (Ascii.eqb c newline) eqn:E; [|reflexivity].
  apply Ascii.eqb_eq in E. now subst c.
Qed.

Lemma replace_newlines_clean (s : string) :
  at_then_word s = false -> at_then_word (replace_newlines s) = false.
Proof.
  induction s as [|c t IH]; intros Q; [reflexivity|].
  destruct (at_then_word_tail c t Q) as [Qt Qc].
  cbn [replace_newlines]. apply at_then_word_cons; [now apply IH|].
  rewrite replace_newlines_head.
  destruct (Ascii.eqb c newline) eqn:E; [discriminate|exact Qc].
Qed.

Lemma collapse_head (s : string) :
  next_is is_word s = false -> next_is is_word (collapse_from false s) = false.
Proof.
  destruct s as [|c t]; [reflexivity|]. simpl. intros N.
  destruct (is_space c); [reflexivity|exact N].
Qed.

Lemma collapse_clean (s : string) :
  forall b, at_then_word s = false -> at_then_word (collapse_from b s) = false.
Proof.
  induction s as [|c t IH]; intros b Q; [reflexivity|].
  destruct (at_then_word_tail c t Q) as [Qt Qc].
  cbn [collapse_from]. destruct (is_space c).
  - destruct b; [now apply IH|].
    apply at_then_word_cons; [now apply IH|discriminate].
  - apply at_then_word_cons; [now apply IH|].
    intros E. apply collapse_head. now apply Qc.
Qed.

Lemma lstrip_clean (s : string) :
  at_then_word s = false -> at_then_word (lstrip s) = false.
Proof.
  induction s as [|c t IH]; intros Q; [reflexivity|].
  simpl. destruct (is_space c); [|exact Q].
  apply IH. now apply (at_then_word_tail c t).
Qed.

Lemma rstrip_clean (s : string) :
  at_then_word s = false -> at_then_word (rstrip s) = false.
Proof.
  induction s as [|c t IH]; intros Q; [reflexivity|].
  destruct (at_then_word_tail c t Q) as [Qt Qc].
  specialize (IH Qt). cbn [rstrip].
  destruct (rstrip t) as [|d t'] eqn:E.
  - destruct (is_space c); [reflexivity|].
    apply at_then_word_cons; [reflexivity|reflexivity].
  - apply at_then_word_cons; [exact IH|].
    intros Ec. rewrite <- E. apply rstrip_head_false. now apply Qc.
Qed.

(** Whatever the tweet, no mention is left in the cleaned text. *)
Lemma cleanup_single_no_mention (x : string) :
  contains_mention (cleanup_single x) = false.
Proof.
  unfold contains_mention. rewrite contains_mention_at_then_word.
  unfold cleanup_single, strip, re_sub at 1.
  rewrite (proj2 (re_sub_spaces_collapse _ None)).
  apply rstrip_clean, lstrip_clean, collapse_clean, replace_newlines_clean,
    remove_hash_clean, remove_rt_clean, remove_urls_clean, remove_mentions_clean.
Qed.

(** C3 (as stated) fails: the retweet marker is dropped once, so a text
    that still starts with it after cleaning changes again. *)
Lemma cleanup_single_not_idempotent :
  ~ (forall x : string, cleanup_single (cleanup_single x) = cleanup_single x).
Proof.
  intros H. specialize (H "RT : RT : a"). vm_compute in H. discriminate.
Qed.

(** The same failure through the pattern [\b#]: of two ['#'] after a
    word character only the first is dropped. *)
Lemma cleanup_single_not_idempotent_hash :
  cleanup_single "a##b" = "a#b" /\ cleanup_single "a#b" = "ab".
Proof. split; reflexivity. Qed.

(** A URL can appear in a cleaned text, when a dropped ['#'] was all that
    kept it from matching. *)
Lemma cleanup_single_not_idempotent_url :
  cleanup_single "ht#tp://t.co" = "http://t.co"
  /\ cleanup_single "http://t.co" = "".
Proof. split; reflexivity. Qed.

(** C3 (as amended). [cleanup_single] applied a second time changes nothing
    when the cleaned text holds no URL and no ['#'] and does not start with
    ["RT : "]. No mention is left in a cleaned text, and the white-space
    steps are a fixed point after one application. *)
Theorem cleanup_single_idempotent_on_clean (x : string) :
  contains_url (cleanup_single x) = false ->
  contains_char "#" (cleanup_single x) = false ->
  startswith (cleanup_single x) "RT : " = false ->
  cleanup_single (cleanup_single x) = cleanup_single x.
Proof.
  intros Hu Hh Hr.
  pose proof (cleanup_single_no_mention x) as Hm.
  set (y := cleanup_single x) in *.
  unfold cleanup_single at 1.
  unfold remove_mentions. rewrite (re_sub_no_match mention "" y Hm).
  unfold remove_urls. rewrite (re_sub_no_match url "" y Hu).
  unfold remove_rt. rewrite Hr.
  unfold remove_hash.
  rewrite (re_sub_no_match boundary_hash "" y (no_hash_no_boundary_hash y None Hh)).
  apply whitespace_steps_fixed.
Qed.

Lemma cleanup_single_idempotent_on_clean_witness :
  cleanup_single (cleanup_single "RT @user: so lit   http://t.co/x")
  = cleanup_single "RT @user: so lit   http://t.co/x".
Proof.
  apply (cleanup_single_idempotent_on_clean "RT @user: so lit   http://t.co/x");
    reflexivity.
Defined.

(** C8 (the code at the failing inputs). A ['#'] that starts a token stays,
    at the start of the text and after a space, in [cleanup_single] and in
    the shared step; a ['#'] inside a token, after a word character, is the
    one that goes. *)
Lemma remove_hash_keeps_leading_hash :
  remove_hash "#tag" = "#tag"
  /\ remove_hash "so #lit" = "so #lit"
  /\ cleanup_single "#tag" = "#tag"
  /\ cleanup_row "#tag" = "#tag"
  /\ remove_hash "a#b" = "ab".
Proof. repeat split; reflexivity. Qed.

End PreprocessFacts.

(** ** The sentiment scorer *)

Module VaderFacts.
Import Preprocess Vader.

Lemma classify_positive (score : Scores) :
  (0.05 <= compound score)%Q -> classify_sentiment score = "positive".
Proof.
  intros H. unfold classify_sentiment.
  apply Qle_bool_iff in H. now rewrite H.
Qed.

Lemma classify_negative (score : Scores) :
  (compound score <= -0.05)%Q -> classify_sentiment score = "negative".
Proof.
  intros H. unfold classify_sentiment.
  destruct (Qle_bool 0.05 (compound score)) eqn:E.
  - apply Qle_bool_iff in E.
    exfalso. apply (Qle_not_lt _ _ (Qle_trans _ _ _ E H)). reflexivity.
  - apply Qle_bool_iff in H. now rewrite H.
Qed.

Lemma classify_neutral (score : Scores) :
  (-0.05 < compound score)%Q -> (compound score < 0.05)%Q ->
  classify_sentiment score = "neutral".
Proof.
  intros H1 H2. unfold classify_sentiment.
  destruct (Qle_bool 0.05 (compound score)) eqn:E.
  - apply Qle_bool_iff in E. exfalso. now apply (Qle_not_lt _ _ E).
  - destruct (Qle_bool (compound score) (-0.05)) eqn:F; [|reflexivity].
    apply Qle_bool_iff in F. exfalso. now apply (Qle_not_lt _ _ F).
Qed.

(** C2. The label depends on the compound score alone; a score of at least
    0.05 is positive, one of at most -0.05 is negative, any other is
    neutral; 0.05 itself is positive, -0.05 negative and 0.0 neutral. *)
Theorem classify_sentiment_thresholds (score : Scores) :
  (forall other : Scores,
      (compound other == compound score)%Q ->
      classify_sentiment other = classify_sentiment score)
  /\ ((0.05 <= compound score)%Q -> classify_sentiment score = "positive")
  /\ ((compound score <= -0.05)%Q -> classify_sentiment score = "negative")
  /\ ((-0.05 < compound score)%Q /\ (compound score < 0.05)%Q ->
      classify_sentiment score = "neutral")
  /\ ((compound score == 0.05)%Q -> classify_sentiment score = "positive")
  /\ ((compound score == -0.05)%Q -> classify_sentiment score = "negative")
  /\ ((compound score == 0.0)%Q -> classify_sentiment score = "neutral").
Proof.
  repeat split.
  - intros other E. unfold classify_sentiment.
    assert (P : Qle_bool 0.05 (compound other) = Qle_bool 0.05 (compound score)).
    { apply eq_true_iff_eq. rewrite !Qle_bool_iff. now rewrite E. }
    assert (N : Qle_bool (compound other) (-0.05) = Qle_bool (compound score) (-0.05)).
    { apply eq_true_iff_eq. rewrite !Qle_bool_iff. now rewrite E. }
    now rewrite P, N.
  - apply classify_positive.
  - apply classify_negative.
  - intros [H1 H2]. now apply classify_neutral.
  - intros E. apply classify_positive. rewrite E. apply Qle_refl.
  - intros E. apply classify_negative. rewrite E. apply Qle_refl.
  - intros E. apply classify_neutral; rewrite E; reflexivity.
Qed.

(** The single-item path scores the cleaned text, the batch path the text
    as it came. *)
Lemma vader_analyze_tweet_scores_cleaned
    (sia : SentimentIntensityAnalyzer) (tweet : string) :
  vader_analyze_tweet sia tweet =
  (tweet, polarity_scores sia (cleanup_single tweet),
   classify_sentiment (polarity_scores sia (cleanup_single tweet))).
Proof. reflexivity. Qed.

Lemma vader_analyze_dataframe_scores_raw `{JsonDumps Scores}
    (sia : SentimentIntensityAnalyzer) (df : DataFrame) :
  df_scores (vader_analyze_dataframe sia df)
  = map (fun text => json_dumps (polarity_scores sia text)) (df_text df)
  /\ df_sentiment (vader_analyze_dataframe sia df)
    = map (fun text => classify_sentiment (polarity_scores sia text)) (df_text df).
Proof. split; simpl; now rewrite map_map. Qed.

(** C4 (the code at the failing input). On the text ["@awesome"] the batch
    path finds the word and labels the row positive; the single-item path
    cleans the text to the empty string first and labels it neutral. *)
Lemma batch_and_single_differ (J : JsonDumps Scores) :
  df_sentiment
    (vader_analyze_dataframe one_word_analyzer
       (mkDataFrame [""] ["@awesome"] [""] [""] [] [] []))
  = ["positive"]
  /\ vader_analyze_tweet one_word_analyzer "@awesome"
    = ("@awesome", mkScores 0%Q 0%Q 0%Q 0%Q, "neutral").
Proof. split; reflexivity. Qed.

End VaderFacts.

(** ** [datetime.strptime] on eight digits *)

Module DatetimeFacts.
Import Datetime.

Lemma re_match_ext {X : Type} (r : re) :
  forall (s : string) (k k' : string -> option X),
    (forall t, k t = k' t) -> re_match r s k = re_match r s k'.
Proof.
  induction r as [p|a IHa b IHb|a IHa b IHb]; intros s k k' E; simpl.
  - destruct s as [|c t]; [reflexivity|]. now rewrite E.
  - apply IHa. intros t. now apply IHb.
  - now rewrite (IHa s k k' E), (IHb s k k' E).
Qed.

(** What the rest of the pattern does with its result can be done after
    the match. *)
Lemma re_match_map {X Y : Type} (f : X -> Y) (r : re) :
  forall (s : string) (k : string -> option X),
    re_match r s (fun t => option_map f (k t))
    = option_map f (re_match r s k).
Proof.
  induction r as [p|a IHa b IHb|a IHa b IHb]; intros s k; simpl.
  - destruct s as [|c t]; [reflexivity|]. now destruct (p c).
  - rewrite <- IHa. apply re_match_ext. intros t. apply IHb.
  - rewrite IHa, IHb. now destruct (re_match a s k).
Qed.

Lemma is_digit_digits (c : ascii) : is_digit c = true -> In c digits.
Proof.
  destruct c as [[] [] [] [] [] [] [] []]; intros H;
    try discriminate H; simpl; tauto.
Qed.

Lemma match_md_table :
  forallb (fun m1 => forallb (fun m2 => forallb (fun d1 => forallb (fun d2 =>
    match_md_ok m1 m2 d1 d2) digits) digits) digits) digits = true.
Proof. vm_compute. reflexivity. Qed.

Lemma match_md_digits (m1 m2 d1 d2 : ascii) :
  is_digit m1 = true -> is_digit m2 = true ->
  is_digit d1 = true -> is_digit d2 = true ->
  match_md_ok m1 m2 d1 d2 = true.
Proof.
  intros H1 H2 H3 H4.
  pose proof match_md_table as T.
  rewrite forallb_forall in T. specialize (T m1 (is_digit_digits _ H1)).
  rewrite forallb_forall in T. specialize (T m2 (is_digit_digits _ H2)).
  rewrite forallb_forall in T. specialize (T d1 (is_digit_digits _ H3)).
  rewrite forallb_forall in T. exact (T d2 (is_digit_digits _ H4)).
Qed.

Lemma eight_digits_inv (s : string) :
  eight_digits s = true ->
  exists y1 y2 y3 y4 m1 m2 d1 d2,
    s = String y1 (String y2 (String y3 (String y4
          (String m1 (String m2 (String d1 (String d2 EmptyString)))))))
    /\ is_digit y1 = true /\ is_digit y2 = true
    /\ is_digit y3 = true /\ is_digit y4 = true
    /\ is_digit m1 = true /\ is_digit m2 = true
    /\ is_digit d1 = true /\ is_digit d2 = true.
Proof.
  unfold eight_digits. intros H. apply andb_true_iff in H as [L D].
  destruct s as [|y1 [|y2 [|y3 [|y4 [|m1 [|m2 [|d1 [|d2 [|x s]]]]]]]]];
    try discriminate L.
  exists y1, y2, y3, y4, m1, m2, d1, d2. simpl in D.
  repeat (apply andb_true_iff in D as [? D]). now repeat split.
Qed.

Lemma digit_value_bounds (c : ascii) :
  is_digit c = true -> (0 <= Z.of_N (N_of_ascii c) - 48 <= 9)%Z.
Proof.
  unfold is_digit. intros H. apply andb_true_iff in H as [A B].
  apply N.leb_le in A, B. lia.
Qed.

Lemma int_year_bounds (y1 y2 y3 y4 : ascii) :
  is_digit y1 = true -> is_digit y2 = true ->
  is_digit y3 = true -> is_digit y4 = true ->
  (0 <= int (String y1 (String y2 (String y3 (String y4 EmptyString)))) <= 9999)%Z.
Proof.
  intros H1 H2 H3 H4. unfold int. cbn [int_digits]. rewrite H1, H2, H3, H4.
  pose proof (digit_value_bounds _ H1). pose proof (digit_value_bounds _ H2).
  pose proof (digit_value_bounds _ H3). pose proof (digit_value_bounds _ H4).
  lia.
Qed.

Lemma days_in_month_bounds (y m : Z) : (28 <= days_in_month y m <= 31)%Z.
Proof.
  unfold days_in_month.
  destruct (m =? 2)%Z; [destruct (is_leap y); lia|].
  destruct ((m =? 4) || (m =? 6) || (m =? 9) || (m =? 11))%Z; lia.
Qed.

(** On eight digits [strptime] with the format [%Y%m%d] returns a date
    exactly when they are a calendar date, and raises [ValueError] when they
    are not. *)
Lemma strptime_eight_digits (s : string) :
  eight_digits s = true ->
  if is_calendar_date s
  then exists d, strptime_Ymd s = Return d
  else exists msg, strptime_Ymd s = Raise (ValueError msg).
Proof.
  intros H8.
  destruct (eight_digits_inv s H8)
    as (y1 & y2 & y3 & y4 & m1 & m2 & d1 & d2 & -> & Hy1 & Hy2 & Hy3 & Hy4
        & Hm1 & Hm2 & Hd1 & Hd2).
  set (Y := String y1 (String y2 (String y3 (String y4 EmptyString)))).
  set (rest := String m1 (String m2 (String d1 (String d2 EmptyString)))).
  assert (M : match_Ymd (Y ++ rest)
              = option_map (fun '(m, d, l3) => (Y, m, d, 8 - l3)) (match_md rest)).
  { unfold match_Ymd, match_md, Y. cbn [append re_Y re_match].
    rewrite Hy1, Hy2, Hy3, Hy4.
    rewrite <- re_match_map. apply re_match_ext. intros s2.
    rewrite <- re_match_map. apply re_match_ext. intros s3.
    reflexivity. }
  pose proof (match_md_digits m1 m2 d1 d2 Hm1 Hm2 Hd1 Hd2) as T.
  unfold match_md_ok in T. fold rest in T.
  pose proof (int_year_bounds y1 y2 y3 y4 Hy1 Hy2 Hy3 Hy4) as By. fold Y in By.
  change (String y1 (String y2 (String y3 (String y4 rest))))
    with (Y ++ rest) in *.
  assert (C : is_calendar_date (Y ++ rest)
              = ((1 <=? int Y)
                 && (1 <=? int (String m1 (String m2 EmptyString)))
                 && (int (String m1 (String m2 EmptyString)) <=? 12)
                 && (1 <=? int (String d1 (String d2 EmptyString)))
                 && (int (String d1 (String d2 EmptyString)) <=?
                     days_in_month (int Y) (int (String m1 (String m2 EmptyString)))))%Z).
  { unfold is_calendar_date, Y, rest. unfold eight_digits in H8.
    cbn [append]. rewrite H8. reflexivity. }
  rewrite C. unfold strptime_Ymd. rewrite M.
  set (mm := int (String m1 (String m2 EmptyString))) in *.
  set (dd := int (String d1 (String d2 EmptyString))) in *.
  pose proof (days_in_month_bounds (int Y) mm) as Bd.
  destruct (match_md rest) as [[[m d] [|l3]]|]; cbn [option_map].
  - apply andb_true_iff in T as [T Ed]. apply andb_true_iff in T as [T Em].
    apply Z.eqb_eq in Em, Ed. rewrite Em, Ed.
    change (negb (length (Y ++ rest) =? 8 - 0)%nat) with false. cbn iota.
    unfold datetime.
    destruct (1 <=? int Y)%Z eqn:E1; cbn [andb negb].
    + replace (int Y <=? 9999)%Z with true by (symmetry; apply Z.leb_le; lia).
      cbn [andb negb].
      apply andb_true_iff in T as [T T4]. apply andb_true_iff in T as [T T3].
      apply andb_true_iff in T as [T1 T2].
      rewrite T1, T2, T3. cbn [andb negb].
      destruct (dd <=? days_in_month (int Y) mm)%Z; cbn [negb]; eauto.
    + eauto.
  - change (length (Y ++ rest)) with 8.
    replace (negb (8 =? 8 - Datatypes.S l3)%nat) with true
      by (symmetry; apply negb_true_iff, Nat.eqb_neq; lia).
    apply negb_true_iff in T.
    replace (_ && _ && _ && _ && _)%bool with false; [eauto|].
    symmetry.
    destruct (1 <=? int Y)%Z; [|reflexivity]. cbn [andb].
    destruct (1 <=? mm)%Z; [|reflexivity].
    destruct (mm <=? 12)%Z; [|reflexivity].
    destruct (1 <=? dd)%Z; [|reflexivity].
    cbn [andb] in *. apply Z.leb_gt in T. apply Z.leb_gt. lia.
  - apply negb_true_iff in T.
    replace (_ && _ && _ && _ && _)%bool with false; [eauto|].
    symmetry.
    destruct (1 <=? int Y)%Z; [|reflexivity]. cbn [andb].
    destruct (1 <=? mm)%Z; [|reflexivity].
    destruct (mm <=? 12)%Z; [|reflexivity].
    destruct (1 <=? dd)%Z; [|reflexivity].
    cbn [andb] in *. apply Z.leb_gt in T. apply Z.leb_gt. lia.
Qed.

End DatetimeFacts.

(** ** The persistent store *)

Module DatabaseFacts.
Import Datetime Database.

Section RandomEntry.
Context {S : Type} `{J : JsonLoads S}.

Lemma filter_none {A : Type} (f : A -> bool) (l : list A) :
  (forall y, In y l -> f y = false) -> filter f l = [].
Proof.
  induction l as [|x l IH]; intros H; [reflexivity|].
  simpl. rewrite (H x (or_introl eq_refl)). apply IH.
  intros y Hy. apply H. now right.
Qed.

Lemma filter_id_unique (conn : connection) (e : Entry) :
  NoDup (map id conn) -> In e conn ->
  filter (fun x => (id x =? id e)%Z) conn = [e].
Proof.
  induction conn as [|x conn IH]; intros Hnd Hin; [contradiction|].
  simpl in Hnd. apply NoDup_cons_iff in Hnd as [Hx Hnd].
  simpl. destruct Hin as [->|Hin].
  - rewrite Z.eqb_refl. f_equal.
    apply filter_none. intros y Hy. apply Z.eqb_neq. intros E.
    apply Hx. rewrite <- E. now apply in_map.
  - destruct (id x =? id e)%Z eqn:E; [|now apply IH].
    apply Z.eqb_eq in E. exfalso. apply Hx. rewrite E. now apply in_map.
Qed.

Lemma get_random_entry_at_id (conn : connection) (e : Entry) :
  NoDup (map id conn) -> In e conn ->
  get_random_entry_at conn (id e) = decode_entry e.
Proof.
  intros Hnd Hin. unfold get_random_entry_at.
  now rewrite (filter_id_unique conn e Hnd Hin).
Qed.

Lemma randint_NoDup (a b : Z) : NoDup (randint a b).
Proof.
  unfold randint. apply Finite.Injective_map_NoDup; [|apply seq_NoDup].
  intros i j E. lia.
Qed.

Lemma dense_NoDup (conn : connection) : dense conn -> NoDup (map id conn).
Proof.
  intros H. apply (Permutation_NoDup (Permutation_sym H)), randint_NoDup.
Qed.

Lemma get_random_entry_draws (conn : connection) :
  dense conn -> conn <> [] ->
  Permutation (get_random_entry conn) (map decode_entry conn).
Proof.
  intros Hd Hne. unfold get_random_entry.
  destruct (Z.of_nat (List.length conn) =? 0)%Z eqn:E.
  - apply Z.eqb_eq in E. destruct conn; [contradiction|discriminate].
  - rewrite <- (Permutation_map (get_random_entry_at conn) Hd).
    rewrite map_map. erewrite map_ext_in; [reflexivity|].
    intros e He. apply get_random_entry_at_id; [now apply dense_NoDup|exact He].
Qed.

Lemma decode_entry_row (conn : connection) :
  scores_are_json conn ->
  Forall (fun e => exists s : S,
            decode_entry e = Return (Some (id e, text e, s, sentiment e))) conn.
Proof.
  intros H. eapply Forall_impl; [|exact H].
  intros e [s Hs]. exists s. unfold decode_entry. now rewrite Hs.
Qed.

(** C1 (as amended). On a store whose ids are exactly 1 to the number of
    rows and whose scores are JSON, [get_random_entry] returns [None] if and
    only if there is no row; on rows, its equally likely outcomes are the
    rows of the store, each once: never [None], never an exception. *)
Theorem get_random_entry_dense (conn : connection) :
  dense conn -> scores_are_json conn ->
  (In (Return None) (get_random_entry conn) <-> conn = [])
  /\ (conn <> [] ->
      Permutation (get_random_entry conn) (map decode_entry conn)
      /\ Forall (fun e => exists s : S,
                   decode_entry e = Return (Some (id e, text e, s, sentiment e)))
                conn).
Proof.
  intros Hd Hj. split; [split|].
  - intros Hin. destruct conn as [|e conn]; [reflexivity|]. exfalso.
    assert (Hne : e :: conn <> []) by discriminate.
    apply (Permutation_in _ (get_random_entry_draws _ Hd Hne)) in Hin.
    apply in_map_iff in Hin as [x [Hx Hin]].
    pose proof (proj1 (Forall_forall _ _) (decode_entry_row _ Hj) x Hin) as [s Hs].
    congruence.
  - intros ->. now left.
  - intros Hne. split; [now apply get_random_entry_draws|].
    now apply decode_entry_row.
Qed.

End RandomEntry.

(** C1 (as stated) fails on a store that holds one row, with id 2: its ids
    are unique and its scores are JSON, it is not empty, and
    [get_random_entry] returns [None]. *)
Lemma get_random_entry_sparse_ids :
  let conn := [mkEntry 2 "so lit" "so lit" "null" "positive"
                 "Mon Jan 22 22:01:10 +0000 2018" "20180122" "[]"] in
  store_ok (S := unit) conn
  /\ conn <> []
  /\ get_random_entry (S := unit) conn = [Return None].
Proof.
  repeat split.
  - repeat constructor. simpl. tauto.
  - repeat constructor. now exists tt.
  - discriminate.
Qed.

Lemma get_random_entry_dense_witness :
  let conn := [mkEntry 2 "so lit" "so lit" "null" "positive"
                 "Mon Jan 22 22:01:10 +0000 2018" "20180122" "[]";
               mkEntry 1 "meh" "meh" "null" "neutral"
                 "Mon Jan 22 22:01:10 +0000 2018" "20180122" "[]"] in
  (In (Return None) (get_random_entry (S := unit) conn) <-> conn = [])
  /\ (conn <> [] ->
      Permutation (get_random_entry conn) (map decode_entry conn)
      /\ Forall (fun e => exists s : unit,
                   decode_entry e = Return (Some (id e, text e, s, sentiment e)))
                conn).
Proof.
  apply (get_random_entry_dense (S := unit)).
  - unfold dense. simpl. apply perm_swap.
  - repeat constructor; now exists tt.
Defined.

(** The ids [add_entries] assigns to an empty table are 1, 2, ... in the
    order of the entries, so the stores this program builds are dense. *)
Lemma next_id_dense (conn : connection) :
  map id conn = randint 1 (Z.of_nat (List.length conn)) ->
  next_id conn = (Z.of_nat (List.length conn) + 1)%Z.
Proof.
  unfold next_id, randint. intros ->.
  replace (Z.to_nat (Z.of_nat (List.length conn) - 1 + 1)) with (List.length conn) by lia.
  generalize (List.length conn) as n. intros n.
  assert (G : forall (l : list Z) (a : Z), (0 <= a)%Z ->
             fold_right Z.max a l = Z.max a (fold_right Z.max 0%Z l)).
  { intros l a Ha. induction l as [|x l IHl]; simpl; [lia|].
    rewrite IHl. lia. }
  induction n as [|n IH]; [reflexivity|].
  rewrite seq_S, map_app, fold_right_app.
  cbn [map fold_right Nat.add].
  rewrite G by lia. lia.
Qed.

Lemma add_entries_ids (entries : list new_entry) :
  forall conn : connection,
    map id conn = randint 1 (Z.of_nat (List.length conn)) ->
    let conn' := fst (add_entries conn entries) in
    map id conn' = randint 1 (Z.of_nat (List.length conn'))
    /\ List.length conn' = (List.length conn + List.length entries)%nat
    /\ snd (add_entries conn entries)
       = map (fun i => (Z.of_nat (List.length conn) + 1 + Z.of_nat i)%Z)
             (seq 0 (List.length entries)).
Proof.
  induction entries as [|[[[[[[t ct] sc] se] d] cd] em] rest IH];
    intros conn Hc; simpl.
  - repeat split; [exact Hc|lia].
  - set (e := mkEntry (next_id conn) t ct sc se d cd em).
    assert (Hc' : map id (conn ++ [e])%list
                  = randint 1 (Z.of_nat (List.length (conn ++ [e])%list))).
    { rewrite map_app, length_app. simpl. rewrite Hc, (next_id_dense conn Hc).
      unfold randint.
      replace (Z.to_nat (Z.of_nat (List.length conn + 1) - 1 + 1))
        with (Datatypes.S (List.length conn)) by lia.
      replace (Z.to_nat (Z.of_nat (List.length conn) - 1 + 1))
        with (List.length conn) by lia.
      rewrite seq_S, map_app. cbn [map Nat.add]. do 2 f_equal. lia. }
    specialize (IH _ Hc').
    destruct (add_entries (conn ++ [e])%list rest) as [conn' ids] eqn:E.
    simpl in IH |- *. destruct IH as [I1 [I2 I3]].
    repeat split; [exact I1| |].
    + rewrite I2, length_app. simpl. lia.
    + rewrite (next_id_dense conn Hc). f_equal; [lia|].
      rewrite I3, <- seq_shift, map_map, length_app. simpl.
      apply map_ext. intros i. lia.
Qed.

Lemma add_entries_dense (entries : list new_entry) :
  dense (fst (add_entries [] entries)).
Proof.
  unfold dense.
  now rewrite (proj1 (add_entries_ids entries [] eq_refl)).
Qed.

(** *** Sorting by a string key *)

Lemma string_leb_trans (a : string) :
  forall b c : string,
    String.leb a b = true -> String.leb b c = true -> String.leb a c = true.
Proof.
  unfold String.leb.
  induction a as [|x a IH]; intros [|y b] [|z c]; simpl; try easy.
  unfold Ascii.compare.
  destruct (N.compare_spec (N_of_ascii x) (N_of_ascii y)) as [E1|L1|G1];
    destruct (N.compare_spec (N_of_ascii y) (N_of_ascii z)) as [E2|L2|G2];
    destruct (N.compare_spec (N_of_ascii x) (N_of_ascii z)) as [E3|L3|G3];
    try easy; try lia.
  apply IH.
Qed.

Section Sorting.
Context {A : Type} (key : A -> string).

Lemma insert_sorted_perm (x : A) (l : list A) :
  Permutation (insert_sorted key x l) (x :: l).
Proof.
  induction l as [|y l IH]; simpl; [reflexivity|].
  destruct (String.leb (key x) (key y)); [reflexivity|].
  rewrite IH. apply perm_swap.
Qed.

Lemma sorted_perm (l : list A) : Permutation (sorted key l) l.
Proof.
  induction l as [|x l IH]; simpl; [reflexivity|].
  rewrite insert_sorted_perm. now constructor.
Qed.

Lemma insert_sorted_strongly (x : A) (l : list A) :
  StronglySorted (key_le key) l -> StronglySorted (key_le key) (insert_sorted key x l).
Proof.
  induction l as [|y l IH]; intros Hs; simpl.
  - repeat constructor.
  - inversion Hs as [|? ? Hl Hy]; subst.
    destruct (String.leb (key x) (key y)) eqn:E.
    + constructor; [exact Hs|]. constructor; [exact E|].
      eapply Forall_impl; [|exact Hy]. intros z Hz.
      exact (string_leb_trans _ _ _ E Hz).
    + constructor; [now apply IH|].
      apply (Permutation_Forall (Permutation_sym (insert_sorted_perm x l))).
      constructor; [|exact Hy].
      destruct (String.leb_total (key x) (key y)) as [F|F]; [congruence|exact F].
Qed.

Lemma sorted_strongly (l : list A) : StronglySorted (key_le key) (sorted key l).
Proof.
  induction l as [|x l IH]; simpl; [constructor|].
  now apply insert_sorted_strongly.
Qed.

End Sorting.

Section DateFilter.
Context {S : Type} `{J : JsonLoads S}.

Lemma for_each_returns {X Y : Type} (f : X -> result Y) (l : list X) :
  Forall (fun a => exists b, f a = Return b) l ->
  exists bs, for_each f l = Return bs /\ map Return bs = map f l.
Proof.
  induction 1 as [|a l [b Hb] _ [bs [Hbs Hm]]]; simpl.
  - now exists [].
  - exists (b :: bs). rewrite Hb, Hbs. simpl. now rewrite Hm.
Qed.

Lemma decode_dated_returns (conn : connection) :
  scores_are_json conn ->
  Forall (fun e => exists row, decode_dated e = Return row) conn.
Proof.
  intros H. eapply Forall_impl; [|exact H].
  intros e [s Hs]. unfold decode_dated. rewrite Hs. simpl. eauto.
Qed.

Lemma Forall_filter {X : Type} (P : X -> Prop) (f : X -> bool) (l : list X) :
  Forall P l -> Forall P (filter f l).
Proof.
  intros H. apply Forall_forall. intros x Hx.
  apply filter_In in Hx as [Hx _].
  exact (proj1 (Forall_forall P l) H x Hx).
Qed.

(** C5. For eight-digit [start_date] and [end_date] and a store whose
    scores are JSON: when both are calendar dates the function returns the
    rows whose [cleaned_date] lies in the inclusive range, each once, in
    ascending order of [cleaned_date]; when one is not it raises the
    [ValueError] of an invalid date and returns no row. *)
Theorem filter_entries_by_date_correct
    (conn : connection) (start_date end_date : string) :
  eight_digits start_date = true -> eight_digits end_date = true ->
  scores_are_json conn ->
  if is_calendar_date start_date && is_calendar_date end_date
  then exists rows,
      filter_entries_by_date conn start_date end_date = Return rows
      /\ Permutation (map Return rows)
           (map decode_dated (filter (in_range start_date end_date) conn))
      /\ StronglySorted (fun r1 r2 => String.leb (snd r1) (snd r2) = true) rows
  else filter_entries_by_date conn start_date end_date
       = Raise (ValueError "Invalid date format. Please use YYYYMMDD.").
Proof.
  intros Hs He Hj.
  pose proof (DatetimeFacts.strptime_eight_digits start_date Hs) as Ps.
  pose proof (DatetimeFacts.strptime_eight_digits end_date He) as Pe.
  unfold filter_entries_by_date.
  destruct (is_calendar_date start_date); cbn [andb].
  - destruct Ps as [ds ->]. cbn [bind].
    destruct (is_calendar_date end_date).
    + destruct Pe as [de ->]. cbn [bind].
      destruct (for_each_returns decode_dated
                  (filter (in_range start_date end_date) conn)) as [rows [Hr Hm]].
      { apply Forall_filter. now apply decode_dated_returns. }
      exists (sorted (fun row => snd row) rows).
      unfold decode_dated in Hr. unfold in_range in Hr at 1.
      unfold between. rewrite Hr. cbn [bind].
      split; [reflexivity|]. split.
      * rewrite <- Hm. apply Permutation_map, sorted_perm.
      * apply (sorted_strongly (fun row => snd row)).
    + destruct Pe as [msg ->]. reflexivity.
  - destruct Ps as [msg ->]. reflexivity.
Qed.

End DateFilter.

Lemma filter_entries_by_date_correct_witness :
  let conn :=
    [mkEntry 1 "one" "one" "null" "neutral" "Sun Dec 31 10:00:00 +0000 2017"
       "20171231" "[]";
     mkEntry 2 "two" "two" "null" "neutral" "Mon Jan 15 10:00:00 +0000 2018"
       "20180115" "[]";
     mkEntry 3 "three" "three" "null" "neutral" "Thu Feb 01 10:00:00 +0000 2018"
       "20180201" "[]"] in
  if is_calendar_date "20180101" && is_calendar_date "20180131"
  then exists rows,
      filter_entries_by_date (S := unit) conn "20180101" "20180131" = Return rows
      /\ Permutation (map Return rows)
           (map decode_dated (filter (in_range "20180101" "20180131") conn))
      /\ StronglySorted (fun r1 r2 => String.leb (snd r1) (snd r2) = true) rows
  else filter_entries_by_date (S := unit) conn "20180101" "20180131"
       = Raise (ValueError "Invalid date format. Please use YYYYMMDD.").
Proof.
  apply (filter_entries_by_date_correct (S := unit));
    [reflexivity|reflexivity|repeat constructor; now exists tt].
Defined.

(** The example of the specification, and a date that is not one. *)
Example filter_entries_by_date_january :
  let conn :=
    [mkEntry 1 "one" "one" "null" "neutral" "Sun Dec 31 10:00:00 +0000 2017"
       "20171231" "[]";
     mkEntry 2 "two" "two" "null" "neutral" "Mon Jan 15 10:00:00 +0000 2018"
       "20180115" "[]";
     mkEntry 3 "three" "three" "null" "neutral" "Thu Feb 01 10:00:00 +0000 2018"
       "20180201" "[]"] in
  filter_entries_by_date (S := unit) conn "20180101" "20180131"
  = Return [(2%Z, "two", tt, "neutral", "20180115")]
  /\ filter_entries_by_date (S := unit) conn "20180101" "20180229"
    = Raise (ValueError "Invalid date format. Please use YYYYMMDD.").
Proof. split; reflexivity. Qed.

(** *** Keyword search *)

Lemma like_percent (s : string) : like "%" s = true.
Proof. induction s as [|c s IH]; [reflexivity|]. simpl in *. now rewrite IH. Qed.

Lemma like_any (p s : string) :
  like (String "%" p) s
  = like p s || match s with
                | EmptyString => false
                | String _ s' => like (String "%" p) s'
                end.
Proof. destruct s; reflexivity. Qed.

Lemma like_literal (c : ascii) (p s : string) :
  Ascii.eqb c "%" = false -> Ascii.eqb c "_" = false ->
  like (String c p) s
  = match s with
    | EmptyString => false
    | String d s' => Ascii.eqb (lower c) (lower d) && like p s'
    end.
Proof. intros H1 H2. simpl. now rewrite H1, H2. Qed.

(** A keyword without wildcards, followed by ['%'], matches the texts it
    is a prefix of. *)
Lemma like_prefix (keyword : string) :
  forall s : string,
    Preprocess.contains_char "%" keyword = false ->
    Preprocess.contains_char "_" keyword = false ->
    like (keyword ++ "%") s = iprefix keyword s.
Proof.
  induction keyword as [|c k IH]; intros s H1 H2.
  - apply like_percent.
  - simpl in H1, H2.
    apply orb_false_iff in H1 as [C1 K1]. apply orb_false_iff in H2 as [C2 K2].
    change ((String c k) ++ "%") with (String c (k ++ "%")).
    rewrite (like_literal c _ s C1 C2).
    destruct s as [|d s]; [reflexivity|]. simpl. now rewrite IH.
Qed.

(** For a keyword in which neither ['%'] nor ['_'] occurs the search
    returns the entries whose cleaned text contains it, letters of ASCII
    compared without case. *)
Lemma like_contains (keyword s : string) :
  Preprocess.contains_char "%" keyword = false ->
  Preprocess.contains_char "_" keyword = false ->
  like ("%" ++ keyword ++ "%") s = icontains keyword s.
Proof.
  intros H1 H2. change ("%" ++ keyword ++ "%") with (String "%" (keyword ++ "%")).
  induction s as [|c s IH]; rewrite like_any, (like_prefix keyword _ H1 H2).
  - cbn [icontains]. now destruct (iprefix keyword "").
  - cbn [icontains]. now rewrite IH.
Qed.

Lemma search_tweets_by_keyword_plain (conn : connection) (keyword : string) :
  Preprocess.contains_char "%" keyword = false ->
  Preprocess.contains_char "_" keyword = false ->
  search_tweets_by_keyword conn keyword
  = map (fun e => (id e, text e))
        (filter (fun e => icontains keyword (cleaned_text e)) conn).
Proof.
  intros H1 H2. unfold search_tweets_by_keyword. f_equal.
  apply filter_ext. intros e. now apply like_contains.
Qed.

Example search_tweets_by_keyword_dope :
  let conn := [mkEntry 1 "This is DOPE content!" "this is dope content" "null"
                 "positive" "" "20180115" "[]";
               mkEntry 2 "nothing here" "nothing here" "null" "neutral" ""
                 "20180115" "[]"] in
  search_tweets_by_keyword conn "DOPE" = [(1%Z, "This is DOPE content!")]
  /\ search_tweets_by_keyword conn "dope" = [(1%Z, "This is DOPE content!")]
  /\ search_tweets_by_keyword conn "DoPe" = [(1%Z, "This is DOPE content!")].
Proof. repeat split; reflexivity. Qed.

(** C7 (the code at the failing inputs). The keyword goes into the
    pattern of [LIKE] as it is, so ['_'] and ['%'] in it are wildcards: the
    keyword ["_"] finds an entry whose cleaned text is ["a"], and the keyword
    ["100%"] one whose cleaned text is ["100 times"], though neither text
    contains its keyword. *)
Lemma search_tweets_by_keyword_wildcards :
  let conn := [mkEntry 1 "a" "a" "null" "neutral" "" "20180115" "[]";
               mkEntry 2 "100 times" "100 times" "null" "neutral" ""
                 "20180115" "[]"] in
  search_tweets_by_keyword conn "_" = [(1%Z, "a"); (2%Z, "100 times")]
  /\ icontains "_" "a" = false
  /\ icontains "_" "100 times" = false
  /\ search_tweets_by_keyword conn "100%" = [(2%Z, "100 times")]
  /\ icontains "100%" "100 times" = false.
Proof. repeat split; reflexivity. Qed.

End DatabaseFacts.

(** ** Similarity search *)

Module SimilarityFacts.
Import Database Similarity.

Section Ranking.
Context {A : Type} (sim : A -> R).

Lemma insert_desc_perm (x : A) (l : list A) :
  Permutation (insert_desc sim x l) (x :: l).
Proof.
  induction l as [|y l IH]; simpl; [reflexivity|].
  destruct (Rle_dec (sim y) (sim x)); [reflexivity|].
  rewrite IH. apply perm_swap.
Qed.

Lemma sort_desc_perm (l : list A) : Permutation (sort_desc sim l) l.
Proof.
  induction l as [|x l IH]; simpl; [reflexivity|].
  rewrite insert_desc_perm. now constructor.
Qed.

(** Sorting commutes with a map that keeps the similarities. *)
Lemma sort_desc_map {B : Type} (f : B -> A) (simB : B -> R) (l : list B) :
  (forall b, sim (f b) = simB b) ->
  map f (sort_desc simB l) = sort_desc sim (map f l).
Proof.
  intros E. induction l as [|x l IH]; simpl; [reflexivity|].
  rewrite <- IH. generalize (sort_desc simB l) as s. intros s.
  induction s as [|y s IHs]; simpl; [reflexivity|].
  rewrite !E. destruct (Rle_dec (simB y) (simB x)); simpl; [reflexivity|].
  now rewrite IHs.
Qed.

End Ranking.

Lemma StronglySorted_map_inv {X Y : Type} (P : Y -> Y -> Prop) (f : X -> Y)
    (l : list X) :
  StronglySorted P (map f l) -> StronglySorted (fun a b => P (f a) (f b)) l.
Proof.
  induction l as [|x l IH]; intros Hs; [constructor|].
  cbn [map] in Hs. inversion Hs as [|? ? Hl Hx]; subst.
  constructor; [now apply IH|].
  apply Forall_forall. intros z Hz.
  exact (proj1 (Forall_forall _ _) Hx (f z) (in_map f l z Hz)).
Qed.

Lemma StronglySorted_weaken {X : Type} (P Q : X -> X -> Prop) (l : list X) :
  (forall a b, P a b -> Q a b) -> StronglySorted P l -> StronglySorted Q l.
Proof.
  intros HPQ. induction 1 as [|x l Hs IH Hx]; constructor; [exact IH|].
  eapply Forall_impl; [|exact Hx]. intros z. apply HPQ.
Qed.

Section Numbered.
Context `{Pandas} {A : Type} (sim : A -> R).

(** A row that came before all rows of a ranked list takes its rank. *)
Lemma insert_desc_ranked (x : nat * A) (l : list (nat * A)) :
  StronglySorted (ranks_before sim) l ->
  Forall (fun z => (fst x < fst z)%nat) l ->
  StronglySorted (ranks_before sim) (insert_desc (by_snd sim) x l).
Proof.
  induction l as [|y l IH]; intros Hs Hx; simpl.
  - repeat constructor.
  - inversion Hs as [|? ? Hl Hy]; subst.
    inversion Hx as [|? ? Hxy Hxl]; subst.
    unfold by_snd at 1 2.
    destruct (Rle_dec (sim (snd y)) (sim (snd x))) as [Le|Gt].
    + constructor; [exact Hs|].
      assert (Bxy : ranks_before sim x y).
      { unfold ranks_before. destruct (Rle_lt_or_eq_dec _ _ Le); [now left|].
        right. split; [now symmetry|exact Hxy]. }
      constructor; [exact Bxy|].
      apply Forall_forall. intros z Hz.
      pose proof (proj1 (Forall_forall _ _) Hy z Hz) as Byz.
      pose proof (proj1 (Forall_forall _ _) Hxl z Hz) as Hxz.
      unfold ranks_before in *.
      destruct Byz as [Lt|[Eq _]].
      * left. lra.
      * destruct (Rle_lt_or_eq_dec _ _ Le) as [Lt'|Eq']; [left; lra|].
        right. split; [lra|exact Hxz].
    + constructor; [now apply IH|].
      apply (Permutation_Forall (Permutation_sym (insert_desc_perm (by_snd sim) x l))).
      constructor; [|exact Hy].
      left. lra.
Qed.

Lemma sort_desc_ranked (l : list (nat * A)) :
  StronglySorted (fun x y => (fst x < fst y)%nat) l ->
  StronglySorted (ranks_before sim) (sort_desc (by_snd sim) l).
Proof.
  induction l as [|x l IH]; intros Hs; simpl; [constructor|].
  inversion Hs as [|? ? Hl Hx]; subst.
  apply insert_desc_ranked; [now apply IH|].
  apply (Permutation_Forall (Permutation_sym (sort_desc_perm (by_snd sim) l))).
  exact Hx.
Qed.

Lemma numbered_from_sorted (df : list A) :
  forall a : nat,
    StronglySorted (fun x y : nat * A => (fst x < fst y)%nat)
      (combine (seq a (List.length df)) df).
Proof.
  induction df as [|r df IH]; intros a; simpl; [constructor|].
  constructor; [apply IH|].
  apply Forall_forall. intros [i z] Hz. simpl.
  apply in_combine_l in Hz. apply in_seq in Hz. lia.
Qed.

Lemma numbered_snd (df : list A) : map snd (numbered df) = df.
Proof.
  unfold numbered. generalize 0%nat as a.
  induction df as [|r df IH]; intros a; simpl; [reflexivity|].
  now rewrite IH.
Qed.

Lemma ranks_before_descending (x y : nat * A) :
  ranks_before sim x y -> (sim (snd y) <= sim (snd x))%R.
Proof. intros [Lt|[Eq _]]; lra. Qed.

(** The rows [nlargest] returns are the first [n] of a ranking of the
    numbered rows in descending order; below the number of rows the
    ranking is the stable one. *)
Lemma nlargest_ranked (n : Z) (df : list A) :
  exists ranked : list (nat * A),
    Permutation ranked (numbered df)
    /\ StronglySorted (fun x y => (sim (snd y) <= sim (snd x))%R) ranked
    /\ ((n < Z.of_nat (List.length df))%Z ->
        StronglySorted (ranks_before sim) ranked)
    /\ nlargest n sim df = map snd (firstn (Z.to_nat n) ranked).
Proof.
  pose proof (sort_desc_ranked (numbered df) (numbered_from_sorted df 0)) as S.
  assert (Stable :
    (n <= 0)%Z \/ (n < Z.of_nat (List.length df))%Z ->
    exists ranked : list (nat * A),
      Permutation ranked (numbered df)
      /\ StronglySorted (fun x y => (sim (snd y) <= sim (snd x))%R) ranked
      /\ ((n < Z.of_nat (List.length df))%Z ->
          StronglySorted (ranks_before sim) ranked)
      /\ nlargest n sim df = map snd (firstn (Z.to_nat n) ranked)).
  { intros Hn. exists (sort_desc (by_snd sim) (numbered df)).
    split; [apply sort_desc_perm|]. split.
    - exact (StronglySorted_weaken _ _ _ ranks_before_descending S).
    - split; [intros _; exact S|].
      unfold nlargest. destruct (Z.leb_spec n 0) as [E|E].
      + now replace (Z.to_nat n) with 0%nat by lia.
      + replace (Z.of_nat (List.length df) <=? n)%Z with false
          by (symmetry; apply Z.leb_gt; lia).
        rewrite <- firstn_map.
        rewrite (sort_desc_map sim snd (by_snd sim)) by reflexivity.
        now rewrite numbered_snd. }
  destruct (Z.leb_spec n 0) as [E0|E0]; [apply Stable; now left|].
  destruct (Z.leb_spec (Z.of_nat (List.length df)) n) as [E|E];
    [|apply Stable; now right].
  pose proof (sort_values_perm A sim df) as P.
  rewrite <- (numbered_snd df) in P at 2.
  apply Permutation_map_inv in P as [ranked [Er Pr]].
  exists ranked. split; [now apply Permutation_sym|]. split.
  - apply (StronglySorted_map_inv (fun a b => (sim b <= sim a)%R)).
    rewrite <- Er. apply sort_values_sorted.
  - split; [lia|].
    unfold nlargest.
    replace (n <=? 0)%Z with false by (symmetry; apply Z.leb_gt; lia).
    replace (Z.of_nat (List.length df) <=? n)%Z with true
      by (symmetry; apply Z.leb_le; lia).
    now rewrite Er, firstn_map.
Qed.

(** The rows [nlargest] returns are rows of the frame. *)
Lemma nlargest_incl (n : Z) (df : list A) : incl (nlargest n sim df) df.
Proof.
  destruct (nlargest_ranked n df) as [ranked [P [_ [_ ->]]]].
  intros x Hx. apply in_map_iff in Hx as [[i y] [<- Hy]].
  rewrite <- (numbered_snd df). apply in_map_iff. exists (i, y).
  split; [reflexivity|].
  apply (Permutation_in _ P).
  clear - Hy. revert Hy. generalize (Z.to_nat n) as k. intros k.
  revert ranked. induction k as [|k IH]; intros [|z l] Hy; simpl in *;
    try tauto.
  destruct Hy as [->|Hy]; [now left|right; now apply IH].
Qed.

End Numbered.

Lemma forallb_length (d : nat) (rows : list Embedding) :
  Forall (fun r => List.length r = d) rows ->
  forallb (fun r => (List.length r =? d)%nat) rows = true.
Proof.
  intros H. apply forallb_forall. intros r Hr. apply Nat.eqb_eq.
  exact (proj1 (Forall_forall _ _) H r Hr).
Qed.

Section TopN.
Context `{Sklearn} `{Pandas}.
Variables (model : SentenceTransformer) (input_text : string).

(** On a well-shaped frame the call returns the texts of the rows
    [nlargest] picks by the column ['similarity']. *)
Lemma get_top_n_similar_texts_nlargest (df : Frame) (top_n : Z) :
  df <> [] -> well_shaped model input_text df ->
  get_top_n_similar_texts df input_text top_n model
  = Return (map (fun row => fst (fst row))
              (nlargest top_n snd (with_similarity model input_text df))).
Proof.
  intros Hne [Hd Hl]. unfold get_top_n_similar_texts.
  assert (Hl' : Forall (fun r => List.length r
                                 = List.length (encode model input_text))
                  (map snd df)).
  { apply Forall_forall. intros r Hr. apply in_map_iff in Hr as [row [<- Hrow]].
    exact (proj1 (Forall_forall _ _) Hl row Hrow). }
  assert (V : vstack (map snd df) = Return (map snd df)).
  { unfold vstack. destruct df as [|row df]; [contradiction|].
    cbn [map]. cbn [map] in Hl'.
    replace (List.length (snd row)) with (List.length (encode model input_text))
      by (symmetry; exact (Forall_inv Hl')).
    now rewrite (forallb_length _ _ Hl'). }
  rewrite V. cbn [bind]. unfold cosine_similarity.
  replace (List.length (encode model input_text) =? 0)%nat with false
    by (symmetry; now apply Nat.eqb_neq).
  rewrite (forallb_length _ _ Hl'). cbn [bind]. reflexivity.
Qed.

Lemma with_similarity_length (df : Frame) :
  List.length (with_similarity model input_text df) = List.length df.
Proof.
  unfold with_similarity.
  rewrite length_combine, pairwise_cosine_length, length_map.
  apply Nat.min_id.
Qed.




End TopN.

(** *** The exact cosine of the examples *)

Lemma normalize_unit (x : Embedding) :
  dot x x = 1%R -> normalize x = x.
Proof.
  intros H. unfold normalize. rewrite H, sqrt_1.
  destruct (Req_dec_T 1 0)%R as [E|_]; [lra|].
  rewrite <- (map_id x) at 2. apply map_ext. intros a. lra.
Qed.

Lemma cosine_10_10 : cosine [1; 0]%R [1; 0]%R = 1%R.
Proof.
  unfold cosine. rewrite normalize_unit by (unfold dot; simpl; lra).
  unfold dot; simpl; lra.
Qed.

Lemma cosine_10_01 : cosine [1; 0]%R [0; 1]%R = 0%R.
Proof.
  unfold cosine. rewrite !normalize_unit by (unfold dot; simpl; lra).
  unfold dot; simpl; lra.
Qed.

(** The cosine of [[1, 0]] and [[a, b]] for a positive [a]: [a] over the
    norm, which lies strictly between 0 and 1 when [b] is not 0. *)
Lemma cosine_10_between (a b : R) :
  (0 < a)%R -> (b <> 0)%R -> (0 < cosine [1; 0]%R [a; b] < 1)%R.
Proof.
  intros Ha Hb.
  unfold cosine. rewrite (normalize_unit [1; 0]%R) by (unfold dot; simpl; lra).
  unfold normalize.
  replace (dot [a; b] [a; b]) with (a * a + b * b)%R by (unfold dot; simpl; lra).
  assert (B : (0 < b * b)%R) by nra.
  assert (P : (0 < sqrt (a * a + b * b))%R) by (apply sqrt_lt_R0; nra).
  assert (Q : (a < sqrt (a * a + b * b))%R).
  { rewrite <- (sqrt_square a) at 1 by lra. apply sqrt_lt_1_alt. nra. }
  destruct (Req_dec_T (sqrt (a * a + b * b)) 0)%R as [E|_]; [lra|].
  unfold dot. simpl.
  set (s := sqrt (a * a + b * b)) in *.
  replace (1 * (a / s) + (0 * (b / s) + 0))%R with (a / s)%R by lra.
  split.
  - apply Rdiv_lt_0_compat; lra.
  - apply (Rmult_lt_reg_r s); [exact P|].
    unfold Rdiv. rewrite Rmult_assoc, Rinv_l by lra. lra.
Qed.




(** The empty frame raises whatever the libraries and [top_n] are. *)
Lemma get_top_n_similar_texts_empty `{Sklearn} `{Pandas}
    (model : SentenceTransformer) (input_text : string) (top_n : Z) :
  get_top_n_similar_texts [] input_text top_n model
  = Raise (ValueError "need at least one array to concatenate").
Proof. reflexivity. Qed.

(** When [top_n] is the number of rows, the order of equally similar rows
    is the library's: it is the order of the frame under a stable
    [sort_values] and the reverse under one that reverses ties. *)
Example nlargest_all_rows_ties :
  nlargest (H := stable_pandas) 2 snd [("a", 1%R); ("b", 1%R)]
  = [("a", 1%R); ("b", 1%R)]
  /\ nlargest (H := reversing_pandas) 2 snd [("a", 1%R); ("b", 1%R)]
     = [("b", 1%R); ("a", 1%R)]
  /\ nlargest (H := reversing_pandas) 1 snd [("a", 1%R); ("b", 1%R)]
     = [("a", 1%R)].
Proof.
  unfold nlargest, sort_desc. cbn.
  destruct (Rle_dec 1 1) as [_|N]; [|lra]. repeat split.
Qed.

(** *** The route [top_n_similar_texts] *)

Lemma for_each_Forall2 {X Y : Type} (f : X -> result Y) (l : list X) :
  forall bs, for_each f l = Return bs ->
             Forall2 (fun a b => f a = Return b) l bs.
Proof.
  induction l as [|a l IH]; simpl; intros bs H.
  - injection H as <-. constructor.
  - destruct (f a) as [b|e] eqn:Fa; [|discriminate]. cbn [bind] in H.
    destruct (for_each f l) as [bs'|e] eqn:Fl; [|discriminate]. cbn [bind] in H.
    injection H as <-. constructor; [exact Fa|now apply IH].
Qed.

Lemma In_firstn {X : Type} (n : nat) (l : list X) (x : X) :
  In x (firstn n l) -> In x l.
Proof.
  revert l. induction n as [|n IH]; intros [|y l] Hx; simpl in *; try tauto.
  destruct Hx as [->|Hx]; [now left|right; now apply IH].
Qed.

Lemma Forall2_In_right {X Y : Type} (P : X -> Y -> Prop)
    (l : list X) (l' : list Y) (y : Y) :
  Forall2 P l l' -> In y l' -> exists x, In x l /\ P x y.
Proof.
  induction 1 as [|x y' l l' Hxy _ IH]; intros Hy; [contradiction|].
  destruct Hy as [->|Hy].
  - exists x. split; [now left|exact Hxy].
  - destruct (IH Hy) as [x' [Hx' Hp]]. exists x'. split; [now right|exact Hp].
Qed.

(** The texts returned are texts of rows of the frame. *)
Lemma get_top_n_similar_texts_incl `{Sklearn} `{Pandas}
    (model : SentenceTransformer)
    (df : Frame) (input_text : string) (top_n : Z) (texts : list string) :
  get_top_n_similar_texts df input_text top_n model = Return texts ->
  incl texts (map fst df).
Proof.
  unfold get_top_n_similar_texts. intros Ht.
  destruct (vstack (map snd df)) as [m|e]; [|discriminate]. cbn [bind] in Ht.
  destruct (cosine_similarity (encode model input_text) m) as [sims|e];
    [|discriminate].
  cbn [bind] in Ht. injection Ht as <-.
  intros t Hin. apply in_map_iff in Hin as [[row sim] [<- Hrow]].
  apply in_map. simpl.
  apply nlargest_incl in Hrow.
  exact (in_combine_l _ _ _ _ Hrow).
Qed.

(** C10. Whenever the route returns texts, the frame it ranked holds the
    rows whose id differs from the queried id, in the order of the table,
    each with its text and its decoded embedding, and no other row; so
    every text it returns is the text of a row with another id. *)
Theorem top_n_similar_texts_excludes_query
    `{Sklearn} `{Pandas} `{JsonLoads Embedding}
    (conn : connection) (model : SentenceTransformer) (id top_n : Z) :
  match top_n_similar_texts conn model id top_n with
  | Return texts =>
      exists (row : Entry) (df : Frame),
        In row conn /\ Database.id row = id
        /\ Forall2 (fun e r => fst r = text e
                               /\ json_loads (embedding e) = Return (snd r))
             (filter (fun e => negb (Database.id e =? id)%Z) conn) df
        /\ get_top_n_similar_texts df (cleaned_text row) top_n model
           = Return texts
        /\ (forall t, In t texts ->
             exists e, In e conn /\ Database.id e <> id /\ text e = t)
  | Raise _ => True
  end.
Proof.
  unfold top_n_similar_texts.
  destruct (top_n <? 1)%Z; [exact I|].
  destruct ((id <? - 2 ^ 63) || (2 ^ 63 <=? id))%Z; [exact I|].
  destruct (fetchone _) as [row|] eqn:Hrow; [|exact I].
  assert (Hin : In row (filter (fun e => (Database.id e =? id)%Z) conn)).
  { destruct (filter _ conn); [discriminate|]. injection Hrow as ->. now left. }
  apply filter_In in Hin as [Hin Hid]. apply Z.eqb_eq in Hid.
  destruct (for_each _ _) as [df|e] eqn:Hdf; [|exact I]. cbn [bind].
  destruct (get_top_n_similar_texts df (cleaned_text row) top_n model)
    as [texts|e] eqn:Ht; [|exact I].
  apply for_each_Forall2 in Hdf.
  assert (F : Forall2 (fun e r => fst r = text e
                                  /\ json_loads (embedding e) = Return (snd r))
                (filter (fun e => negb (Database.id e =? id)%Z) conn) df).
  { clear Ht. revert Hdf.
    generalize (filter (fun e => negb (Database.id e =? id)%Z) conn).
    intros l. revert df. induction l as [|e l IH]; intros df Hdf.
    - inversion Hdf. constructor.
    - inversion Hdf as [|? r ? df' Hr Hl]; subst. simpl in Hr.
      destruct (json_loads (embedding e)) as [v|] eqn:Hv; [|discriminate].
      cbn [bind] in Hr. injection Hr as <-.
      constructor; [now split|now apply IH]. }
  exists row, df. repeat split; try assumption.
  intros t Hin_t.
  apply (get_top_n_similar_texts_incl _ _ _ _ _ Ht) in Hin_t.
  apply in_map_iff in Hin_t as [r [<- Hr]].
  destruct (Forall2_In_right _ _ _ _ F Hr) as [e [He [Hfst _]]].
  apply filter_In in He as [He Hne].
  exists e. split; [exact He|]. split; [|now symmetry].
  apply negb_true_iff, Z.eqb_neq in Hne. exact Hne.
Qed.

(** The route on a store of three rows whose embeddings are [[1, 0]],
    [[0, 1]] and [[1, 1]], for a model that embeds the query as [[1, 0]]
    and libraries that compute the cosines without rounding and sort
    stably: asked for row 1 it ranks rows 2 and 3 and never returns row 1,
    whose embedding is the query's own. *)
Example top_n_similar_texts_other_rows :
  let model := {| encode := fun _ => [1; 0]%R |} in
  let conn :=
    [mkEntry 1 "one" "one" "null" "neutral" "" "20180101" "[1, 0]";
     mkEntry 2 "two" "two" "null" "neutral" "" "20180101" "[0, 1]";
     mkEntry 3 "three" "three" "null" "neutral" "" "20180101" "[1, 1]"] in
  let route :=
    top_n_similar_texts (H := exact_sklearn) (H0 := stable_pandas) conn model in
  route 1%Z 1%Z = Return ["three"]
  /\ route 1%Z 2%Z = Return ["three"; "two"]
  /\ route 4%Z 1%Z
     = Raise (HTTPException 404 "Text not found for the given ID")
  /\ route 1%Z 0%Z
     = Raise (HTTPException 422 "Input should be greater than or equal to 1").
Proof.
  intros model conn route.
  destruct (cosine_10_between 1 1)%R as [P Q]; [lra|lra|].
  assert (T : forall top_n : Z,
             (1 <= top_n)%Z ->
             route 1%Z top_n
             = Return (map fst (firstn (Z.to_nat top_n)
                                  [("three", [1; 1]%R); ("two", [0; 1]%R)]))).
  { intros top_n Hn.
    change (route 1%Z top_n)
      with (if (top_n <? 1)%Z
            then Raise (HTTPException 422 "Input should be greater than or equal to 1")
            else get_top_n_similar_texts (H := exact_sklearn)
                   (H0 := stable_pandas)
                   [("two", [0; 1]%R); ("three", [1; 1]%R)] "one" top_n model).
    replace (top_n <? 1)%Z with false by (symmetry; apply Z.ltb_ge; lia).
    rewrite get_top_n_similar_texts_nlargest;
      [|discriminate|split; [discriminate|repeat constructor]].
    unfold nlargest, with_similarity.
    replace (top_n <=? 0)%Z with false by (symmetry; apply Z.leb_gt; lia).
    cbn [exact_sklearn stable_pandas sort_values pairwise_cosine map snd
         encode model combine sort_desc fold_right insert_desc List.length].
    rewrite cosine_10_01.
    destruct (Rle_dec (cosine [1; 0] [1; 1]) 0)%R as [Hle|_]; [lra|].
    destruct (Z.of_nat 2 <=? top_n)%Z; rewrite <- !firstn_map; reflexivity. }
  repeat split.
  - now rewrite T.
  - now rewrite T.
Qed.

End SimilarityFacts.

(** ** More on the text normalizer *)

Module CleanupFacts.
Import Preprocess PreprocessFacts.

Lemma single_spaced_only_space (c : ascii) (s : string) :
  is_space c = true -> c <> " "%char ->
  single_spaced s = true -> contains_char c s = false.
Proof.
  intros Hc Hn. induction s as [|a s IH]; intros H; [reflexivity|].
  simpl in H |- *. apply andb_true_iff in H as [Ha Hs].
  rewrite (IH Hs), orb_false_r.
  destruct (Ascii.eqb_spec a c) as [->|]; [|reflexivity].
  rewrite Hc in Ha. apply andb_true_iff in Ha as [Ha _].
  apply Ascii.eqb_eq in Ha. contradiction.
Qed.

Lemma re_sub_from_length (m : matcher) (s : string) :
  forall prev skip,
    length (re_sub_from m "" prev skip s) <= length s.
Proof.
  induction s as [|c t IH]; intros prev skip; [apply le_n|].
  cbn [re_sub_from length].
  destruct skip as [|k].
  - destruct (m prev (String c t)) as [[|k]|].
    + cbn [length]. apply le_n_S, IH.
    + cbn [append]. apply Nat.le_le_succ_r, IH.
    + cbn [length]. apply le_n_S, IH.
  - apply Nat.le_le_succ_r, IH.
Qed.

Lemma drop_length (n : nat) : forall s, length (drop n s) <= length s.
Proof.
  induction n as [|n IH]; intros [|c t]; simpl; try apply le_n.
  apply Nat.le_le_succ_r, IH.
Qed.

Lemma remove_rt_length (s : string) : length (remove_rt s) <= length s.
Proof.
  unfold remove_rt. destruct (startswith s "RT : "); [apply drop_length|apply le_n].
Qed.

Lemma replace_newlines_length (s : string) :
  length (replace_newlines s) = length s.
Proof. induction s as [|c t IH]; simpl; [reflexivity|now rewrite IH]. Qed.

Lemma collapse_length (s : string) :
  forall b, length (collapse_from b s) <= length s.
Proof.
  induction s as [|c t IH]; intros b; [apply le_n|].
  cbn [collapse_from length].
  destruct (is_space c); [destruct b|]; cbn [length];
    [apply Nat.le_le_succ_r|apply le_n_S|apply le_n_S]; apply IH.
Qed.

Lemma lstrip_length (s : string) : length (lstrip s) <= length s.
Proof.
  induction s as [|c t IH]; [apply le_n|].
  cbn [lstrip]. destruct (is_space c); [|apply le_n].
  cbn [length]. apply Nat.le_le_succ_r, IH.
Qed.

Lemma rstrip_length (s : string) : length (rstrip s) <= length s.
Proof.
  induction s as [|c t IH]; [apply le_n|].
  cbn [rstrip]. destruct (rstrip t) as [|d r].
  - destruct (is_space c); cbn [length]; lia.
  - cbn [length] in *. lia.
Qed.

Lemma replace_newlines_no_newline (s : string) :
  contains_char newline (replace_newlines s) = false.
Proof.
  induction s as [|c t IH]; [reflexivity|].
  cbn [replace_newlines contains_char]. rewrite IH, orb_false_r.
  destruct (Ascii.eqb_spec c newline) as [->|Hc]; [reflexivity|].
  now apply Ascii.eqb_neq.
Qed.

(** X1. The white space of a cleaned text is normalized, whatever the tweet:
    the text has no white space at either end, each white-space character
    in it is one [' '] with no white space after it, and no other
    white-space character (a newline, a tab, a no-break space) occurs. *)
Theorem cleanup_single_whitespace (x : string) :
  let y := cleanup_single x in
  strip y = y
  /\ single_spaced y = true
  /\ next_is is_space y = false
  /\ (forall c : ascii,
        is_space c = true -> c <> " "%char -> contains_char c y = false).
Proof.
  set (z := replace_newlines (remove_hash (remove_rt (remove_urls
              (remove_mentions x))))).
  assert (E : cleanup_single x = strip (collapse_from false z)).
  { unfold cleanup_single, re_sub.
    now rewrite (proj2 (re_sub_spaces_collapse _ None)). }
  cbv zeta. rewrite E.
  assert (Hs : single_spaced (strip (collapse_from false z)) = true).
  { apply single_spaced_rstrip, single_spaced_lstrip, collapse_single_spaced. }
  split; [apply strip_strip|]. split; [exact Hs|]. split.
  - apply rstrip_head_false, lstrip_head.
  - intros c Hc Hn. now apply single_spaced_only_space.
Qed.

(** X2. Cleaning never makes a tweet longer. *)
Theorem cleanup_single_length (x : string) :
  length (cleanup_single x) <= length x.
Proof.
  unfold cleanup_single, re_sub at 1.
  rewrite (proj2 (re_sub_spaces_collapse _ None)).
  unfold strip.
  eapply Nat.le_trans; [apply rstrip_length|].
  eapply Nat.le_trans; [apply lstrip_length|].
  eapply Nat.le_trans; [apply collapse_length|].
  rewrite replace_newlines_length.
  unfold remove_hash, remove_urls, remove_mentions, re_sub.
  eapply Nat.le_trans; [apply re_sub_from_length|].
  eapply Nat.le_trans; [apply remove_rt_length|].
  eapply Nat.le_trans; [apply re_sub_from_length|].
  apply re_sub_from_length.
Qed.

(** X3. No mention is left in a cleaned text, by either cleaner: whatever the
    input, neither [cleanup_single] nor the text steps of [cleanup] return
    a text in which the pattern of a mention still matches; and the text
    steps of [cleanup] leave no newline. *)
Theorem cleaned_text_no_mention (x : string) :
  contains_mention (cleanup_single x) = false
  /\ contains_mention (cleanup_row x) = false
  /\ contains_char newline (cleanup_row x) = false.
Proof.
  split; [apply cleanup_single_no_mention|]. split.
  - unfold contains_mention. rewrite contains_mention_at_then_word.
    unfold cleanup_row, strip.
    apply replace_newlines_clean, remove_hash_clean, remove_rt_clean,
      rstrip_clean, lstrip_clean, remove_urls_clean,
      rstrip_clean, lstrip_clean, remove_mentions_clean.
  - apply replace_newlines_no_newline.
Qed.

Lemma blank_no_match (m : matcher) (s : string) :
  (forall prev c t, is_space c = true -> m prev (String c t) = None) ->
  DatabaseQueries.all_chars is_space s = true ->
  forall prev, has_match m prev s = false.
Proof.
  intros Hm. induction s as [|c t IH]; intros Hs prev; [reflexivity|].
  simpl in Hs. apply andb_true_iff in Hs as [Hc Ht].
  cbn [has_match]. rewrite (Hm prev c t Hc). now apply IH.
Qed.

Lemma blank_prefix (a : ascii) (p : string) (c : ascii) (t : string) :
  is_space a = false -> is_space c = true ->
  prefix (String a p) (String c t) = false.
Proof.
  intros Ha Hc. destruct (prefix (String a p) (String c t)) eqn:E;
    [|reflexivity].
  apply prefix_cons in E as [t' [E _]]. inversion E; subst. congruence.
Qed.

Lemma blank_collapse (s : string) :
  DatabaseQueries.all_chars is_space s = true ->
  forall b, DatabaseQueries.all_chars is_space (collapse_from b s) = true.
Proof.
  induction s as [|c t IH]; intros Hs b; [reflexivity|].
  simpl in Hs. apply andb_true_iff in Hs as [Hc Ht].
  cbn [collapse_from]. rewrite Hc.
  destruct b; [now apply IH|].
  cbn [DatabaseQueries.all_chars]. now rewrite IH.
Qed.

Lemma blank_lstrip (s : string) :
  DatabaseQueries.all_chars is_space s = true -> lstrip s = "".
Proof.
  induction s as [|c t IH]; intros Hs; [reflexivity|].
  simpl in Hs. apply andb_true_iff in Hs as [Hc Ht].
  cbn [lstrip]. rewrite Hc. now apply IH.
Qed.

Lemma blank_replace_newlines (s : string) :
  DatabaseQueries.all_chars is_space s = true ->
  DatabaseQueries.all_chars is_space (replace_newlines s) = true.
Proof.
  induction s as [|c t IH]; intros Hs; [reflexivity|].
  simpl in Hs. apply andb_true_iff in Hs as [Hc Ht].
  cbn [replace_newlines DatabaseQueries.all_chars]. rewrite (IH Ht).
  destruct (Ascii.eqb c newline); [reflexivity|now rewrite Hc].
Qed.

(** X4. A blank tweet cleans to the empty text: when the tweet is empty or
    holds white space only, [cleanup_single] returns [""]. *)
Theorem cleanup_single_blank (x : string) :
  DatabaseQueries.all_chars is_space x = true -> cleanup_single x = "".
Proof.
  intros Hx.
  assert (E1 : remove_mentions x = x).
  { apply re_sub_no_match, blank_no_match; [|exact Hx]. intros prev c t Hc.
    rewrite mention_cases.
    destruct (Ascii.eqb_spec c "@") as [->|]; [discriminate|reflexivity]. }
  assert (E2 : remove_urls x = x).
  { apply re_sub_no_match, blank_no_match; [|exact Hx]. intros prev c t Hc.
    unfold url. now rewrite !blank_prefix. }
  assert (E3 : remove_rt x = x).
  { unfold remove_rt, startswith. destruct x as [|c t]; [reflexivity|].
    simpl in Hx. apply andb_true_iff in Hx as [Hc _].
    now rewrite blank_prefix. }
  assert (E4 : remove_hash x = x).
  { apply re_sub_no_match, blank_no_match; [|exact Hx]. intros prev c t Hc.
    unfold boundary_hash.
    destruct (Ascii.eqb_spec c "#") as [->|Hne]; [discriminate|].
    destruct c as [[] [] [] [] [] [] [] []]; try reflexivity.
    now contradiction Hne. }
  unfold cleanup_single. rewrite E1, E2, E3, E4.
  unfold re_sub. rewrite (proj2 (re_sub_spaces_collapse _ None)).
  unfold strip. rewrite blank_lstrip; [reflexivity|].
  apply blank_collapse, blank_replace_newlines, Hx.
Qed.

Lemma cleanup_single_blank_witness :
  cleanup_single (String " " (String newline (String "009" " "))) = "".
Proof.
  apply cleanup_single_blank. reflexivity.
Defined.

End CleanupFacts.

(** ** More on the store *)

Module StoreFacts.
Import Datetime Database DatabaseFacts DatabaseQueries.

Lemma next_id_fresh (conn : connection) :
  (0 < next_id conn)%Z /\ Forall (fun e => (id e < next_id conn)%Z) conn.
Proof.
  unfold next_id. induction conn as [|x conn [IH1 IH2]]; cbn [map fold_right].
  - split; [lia|constructor].
  - split; [lia|]. constructor; [lia|].
    eapply Forall_impl; [|exact IH2]. intros e He. cbv beta in He. lia.
Qed.

Lemma add_entries_spec (entries : list new_entry) :
  forall conn : connection,
    fst (add_entries conn entries)
    = (conn ++ map (fun p => row_of (fst p) (snd p))
                 (combine (snd (add_entries conn entries)) entries))%list
    /\ List.length (snd (add_entries conn entries)) = List.length entries
    /\ StronglySorted Z.lt (snd (add_entries conn entries))
    /\ Forall (fun i => (0 < i)%Z /\ Forall (fun e => (id e < i)%Z) conn)
         (snd (add_entries conn entries)).
Proof.
  induction entries as [|[[[[[[t ct] sc] se] d] cd] em] rest IH]; intros conn.
  - simpl. rewrite app_nil_r. repeat split; constructor.
  - cbn [add_entries].
    set (e := mkEntry (next_id conn) t ct sc se d cd em).
    specialize (IH (conn ++ [e])%list).
    destruct (add_entries (conn ++ [e])%list rest) as [conn' ids].
    cbn [fst snd] in *. destruct IH as [I1 [I2 [I3 I4]]].
    destruct (next_id_fresh conn) as [F1 F2].
    repeat split.
    + rewrite I1, <- app_assoc. reflexivity.
    + simpl. now rewrite I2.
    + constructor; [exact I3|].
      eapply Forall_impl; [|exact I4]. intros i [_ Hi].
      apply Forall_app in Hi as [_ Hi]. now inversion Hi.
    + constructor; [split; assumption|].
      eapply Forall_impl; [|exact I4]. intros i [Hp Hi].
      split; [exact Hp|]. now apply Forall_app in Hi as [Hi _].
Qed.

(** X5. [add_entries] only appends: the rows that were in the table stay as
    they are and where they are, the new rows follow in the order of the
    entries, each with the columns it was given, and the ids returned, one
    for each entry, are positive, strictly increasing and larger than
    every id that was in the table. *)
Theorem add_entries_appends (conn : connection) (entries : list new_entry) :
  let '(conn', ids) := add_entries conn entries in
  conn' = (conn ++ map (fun p => row_of (fst p) (snd p))
                     (combine ids entries))%list
  /\ List.length ids = List.length entries
  /\ StronglySorted Z.lt ids
  /\ Forall (fun i => (0 < i)%Z /\ Forall (fun e => (id e < i)%Z) conn) ids.
Proof.
  pose proof (add_entries_spec entries conn) as H.
  now destruct (add_entries conn entries) as [conn' ids].
Qed.

Section Lookup.
Context {S : Type} `{J : JsonLoads S}.

Lemma add_entries_NoDup (conn : connection) (entries : list new_entry) :
  NoDup (map id conn) -> NoDup (map id (fst (add_entries conn entries))).
Proof.
  intros Hnd.
  destruct (add_entries_spec entries conn) as [E [Hl [Hs Hf]]].
  rewrite E, map_app.
  assert (Hm : forall ids es, List.length ids = List.length es ->
            map id (map (fun p => row_of (fst p) (snd p)) (combine ids es))
            = ids).
  { induction ids as [|i ids IH]; intros [|e es] Hlen; try discriminate;
      [reflexivity|].
    simpl. rewrite IH by (simpl in Hlen; lia).
    now destruct e as [[[[[[t ct] sc] se] d] cd] em]. }
  rewrite (Hm _ _ Hl).
  apply NoDup_app; [exact Hnd| |].
  - clear - Hs. induction Hs as [|i ids Hs IH Hi]; constructor; [|exact IH].
    intros Hin. pose proof (proj1 (Forall_forall _ _) Hi i Hin) as Hlt.
    cbv beta in Hlt. lia.
  - intros i Hi Hin.
    apply (proj1 (Forall_forall _ _) Hf) in Hin as [_ Hin].
    apply in_map_iff in Hi as [e [He Hi]].
    pose proof (proj1 (Forall_forall _ _) Hin e Hi) as Hlt.
    cbv beta in Hlt. lia.
Qed.

(** X6. Insert and look up. On a table whose ids are distinct, each id that
    [add_entries] returns finds, by the lookup of [get_random_entry], the
    entry it was returned for: its text, its sentiment and the JSON of
    its scores. *)
Theorem add_entries_lookup (conn : connection) (entries : list new_entry) :
  NoDup (map id conn) ->
  Forall2 (fun i entry =>
             get_random_entry_at (fst (add_entries conn entries)) i
             = decode_entry (row_of i entry))
          (snd (add_entries conn entries)) entries.
Proof.
  intros Hnd.
  pose proof (add_entries_NoDup conn entries Hnd) as Hnd'.
  destruct (add_entries_spec entries conn) as [E [Hl _]].
  assert (Hin : forall ids es, List.length ids = List.length es ->
            Forall2 (fun i entry =>
                       In (row_of i entry)
                          (map (fun p => row_of (fst p) (snd p))
                               (combine ids es))) ids es).
  { induction ids as [|i ids IH]; intros [|e es] Hlen; try discriminate;
      constructor.
    - now left.
    - eapply Forall2_impl; [|apply IH; simpl in Hlen; lia].
      intros a b Hab. now right. }
  eapply Forall2_impl; [|exact (Hin _ _ Hl)].
  intros i entry Hi. cbv beta in Hi.
  assert (Hid : id (row_of i entry) = i)
    by now destruct entry as [[[[[[t ct] sc] se] d] cd] em].
  rewrite <- Hid at 1.
  apply get_random_entry_at_id; [exact Hnd'|].
  rewrite E. apply in_or_app. now right.
Qed.

End Lookup.

Lemma add_entries_lookup_witness :
  let conn := [mkEntry 7 "old" "old" "null" "neutral" "" "20180101" "[]"] in
  let entries := [("so lit", "so lit", "null", "positive", "", "20180115", "[]");
                  ("meh", "meh", "null", "neutral", "", "20180116", "[]")] in
  Forall2 (fun i entry =>
             get_random_entry_at (S := unit) (fst (add_entries conn entries)) i
             = decode_entry (row_of i entry))
          (snd (add_entries conn entries)) entries.
Proof.
  apply (add_entries_lookup (S := unit)).
  repeat constructor. simpl. tauto.
Defined.

(** X7. Ingestion into a new table. The ids [add_entries] returns for an
    empty table are 1 to the number of entries, in the order of the
    entries; the table then holds the entries under these ids, in that
    order, and its ids are dense, which is what [get_random_entry]
    relies on. *)
Theorem add_entries_fresh (entries : list new_entry) :
  let n := Z.of_nat (List.length entries) in
  snd (add_entries [] entries) = randint 1 n
  /\ fst (add_entries [] entries)
     = map (fun p => row_of (fst p) (snd p)) (combine (randint 1 n) entries)
  /\ dense (fst (add_entries [] entries)).
Proof.
  cbv zeta.
  destruct (add_entries_ids entries [] eq_refl) as [_ [_ Hids]].
  assert (E : snd (add_entries [] entries)
              = randint 1 (Z.of_nat (List.length entries))).
  { rewrite Hids. unfold randint.
    replace (Z.to_nat (Z.of_nat (List.length entries) - 1 + 1))
      with (List.length entries) by lia.
    apply map_ext. intros i. simpl. lia. }
  split; [exact E|]. split; [|apply add_entries_dense].
  rewrite (proj1 (add_entries_spec entries [])), E. reflexivity.
Qed.

Lemma string_leb_refl (s : string) : String.leb s s = true.
Proof. now destruct (String.leb_total s s). Qed.

Section Stable.
Context {A : Type} (key : A -> string).

Lemma insert_sorted_stable (d : string) (x : A) (l : list A) :
  filter (fun y => String.eqb (key y) d) (insert_sorted key x l)
  = filter (fun y => String.eqb (key y) d) (x :: l).
Proof.
  induction l as [|y l IH]; [reflexivity|].
  cbn [insert_sorted].
  destruct (String.leb (key x) (key y)) eqn:E; [reflexivity|].
  cbn [filter] in IH |- *. rewrite IH.
  destruct (String.eqb_spec (key x) d) as [Hx|Hx]; [|reflexivity].
  destruct (String.eqb_spec (key y) d) as [Hy|Hy]; [|reflexivity].
  rewrite Hx, Hy, string_leb_refl in E. discriminate.
Qed.

Lemma sorted_stable (d : string) (l : list A) :
  filter (fun y => String.eqb (key y) d) (sorted key l)
  = filter (fun y => String.eqb (key y) d) l.
Proof.
  induction l as [|x l IH]; [reflexivity|].
  cbn [sorted fold_right]. rewrite insert_sorted_stable.
  cbn [filter]. fold (sorted key l). now rewrite IH.
Qed.

End Stable.

Lemma Forall2_filter {X Y : Type} (R : X -> Y -> Prop)
    (p : X -> bool) (q : Y -> bool) (l : list X) (l' : list Y) :
  (forall a b, R a b -> p a = q b) ->
  Forall2 R l l' -> Forall2 R (filter p l) (filter q l').
Proof.
  intros Hpq. induction 1 as [|a b l l' Hab _ IH]; [constructor|].
  cbn [filter]. rewrite <- (Hpq a b Hab).
  destruct (p a); [constructor|]; assumption.
Qed.

Lemma Forall2_map_Return {X Y : Type} (f : X -> result Y)
    (l : list X) (l' : list Y) :
  Forall2 (fun a b => f a = Return b) l l' -> map Return l' = map f l.
Proof.
  induction 1 as [|a b l l' Hab _ IH]; [reflexivity|].
  simpl. now rewrite Hab, IH.
Qed.

Section DateRange.
Context {S : Type} `{J : JsonLoads S}.

Lemma decode_dated_date (e : Entry) (r : Z * string * S * string * string) :
  decode_dated e = Return r -> snd r = cleaned_date e.
Proof.
  unfold decode_dated. destruct (json_loads (scores e)); [|discriminate].
  cbn [bind]. intros E. now inversion E.
Qed.

(** X8. Entries of one date come in the order of the table. For eight-digit
    calendar dates and a store whose scores are JSON, the rows
    [filter_entries_by_date] returns for any one date [d] are the rows of
    the table in the range with that [cleaned_date], in the order of the
    table: the sort by date is stable. *)
Theorem filter_entries_by_date_stable
    (conn : connection) (start_date end_date : string) :
  is_calendar_date start_date = true -> is_calendar_date end_date = true ->
  scores_are_json conn ->
  exists rows,
    filter_entries_by_date conn start_date end_date = Return rows
    /\ forall d : string,
        map Return (filter (fun r => String.eqb (snd r) d) rows)
        = map decode_dated
            (filter (fun e => String.eqb (cleaned_date e) d)
                    (filter (in_range start_date end_date) conn)).
Proof.
  intros Hs He Hj.
  assert (H8 : forall s, is_calendar_date s = true -> eight_digits s = true).
  { intros s H. unfold is_calendar_date in H. unfold eight_digits.
    apply andb_true_iff in H as [H _]. exact H. }
  pose proof (DatetimeFacts.strptime_eight_digits _ (H8 _ Hs)) as Ps.
  pose proof (DatetimeFacts.strptime_eight_digits _ (H8 _ He)) as Pe.
  rewrite Hs in Ps. rewrite He in Pe.
  destruct Ps as [ds Ps], Pe as [de Pe].
  unfold filter_entries_by_date. rewrite Ps, Pe. cbn [bind].
  destruct (for_each_returns decode_dated
              (filter (in_range start_date end_date) conn)) as [rows [Hr _]].
  { apply Forall_filter. now apply decode_dated_returns. }
  pose proof (SimilarityFacts.for_each_Forall2 _ _ _ Hr) as HF.
  exists (sorted (fun row => snd row) rows).
  unfold decode_dated in Hr. unfold in_range in Hr at 1.
  unfold between. rewrite Hr. cbn [bind].
  split; [reflexivity|]. intros d.
  rewrite (sorted_stable (fun row => snd row) d rows).
  apply Forall2_map_Return.
  apply Forall2_filter with (p := fun e => String.eqb (cleaned_date e) d)
                            (q := fun r => String.eqb (snd r) d); [|exact HF].
  intros e r Her. now rewrite (decode_dated_date e r Her).
Qed.

(** X9. A range whose start lies after its end selects nothing: for calendar
    dates [start_date > end_date] the function returns the empty list,
    not an error, whatever the table holds. *)
Theorem filter_entries_by_date_reversed
    (conn : connection) (start_date end_date : string) :
  is_calendar_date start_date = true -> is_calendar_date end_date = true ->
  String.leb start_date end_date = false ->
  filter_entries_by_date conn start_date end_date = Return [].
Proof.
  intros Hs He Hlt.
  assert (H8 : forall s, is_calendar_date s = true -> eight_digits s = true).
  { intros s H. unfold is_calendar_date in H. unfold eight_digits.
    apply andb_true_iff in H as [H _]. exact H. }
  pose proof (DatetimeFacts.strptime_eight_digits _ (H8 _ Hs)) as Ps.
  pose proof (DatetimeFacts.strptime_eight_digits _ (H8 _ He)) as Pe.
  rewrite Hs in Ps. rewrite He in Pe.
  destruct Ps as [ds Ps], Pe as [de Pe].
  unfold filter_entries_by_date. rewrite Ps, Pe. cbn [bind].
  rewrite filter_none; [reflexivity|].
  intros e _. unfold between.
  destruct (String.leb start_date (cleaned_date e)) eqn:E1; [|reflexivity].
  destruct (String.leb (cleaned_date e) end_date) eqn:E2; [|reflexivity].
  now rewrite (string_leb_trans _ _ _ E1 E2) in Hlt.
Qed.

End DateRange.

Lemma filter_entries_by_date_stable_witness :
  let conn :=
    [mkEntry 1 "one" "one" "null" "neutral" "" "20180115" "[]";
     mkEntry 2 "two" "two" "null" "neutral" "" "20180102" "[]";
     mkEntry 3 "three" "three" "null" "neutral" "" "20180115" "[]"] in
  exists rows,
    filter_entries_by_date (S := unit) conn "20180101" "20180131" = Return rows
    /\ forall d : string,
        map Return (filter (fun r => String.eqb (snd r) d) rows)
        = map decode_dated
            (filter (fun e => String.eqb (cleaned_date e) d)
                    (filter (in_range "20180101" "20180131") conn)).
Proof.
  apply (filter_entries_by_date_stable (S := unit)); [reflexivity|reflexivity|].
  repeat constructor; now exists tt.
Defined.

Lemma filter_entries_by_date_reversed_witness :
  filter_entries_by_date (S := unit)
    [mkEntry 1 "one" "one" "null" "neutral" "" "20180115" "[]"]
    "20180131" "20180101"
  = Return [].
Proof.
  apply (filter_entries_by_date_reversed (S := unit)); reflexivity.
Defined.

(** X10. The empty keyword matches every row: [search_tweets_by_keyword]
    returns the id and the text of each row of the table, in the order of
    the table. *)
Theorem search_tweets_by_keyword_empty (conn : connection) :
  search_tweets_by_keyword conn ""
  = map (fun e => (id e, text e)) conn.
Proof.
  unfold search_tweets_by_keyword. f_equal.
  induction conn as [|e conn IH]; [reflexivity|].
  cbn [filter]. rewrite IH.
  change ("%" ++ "" ++ "%") with "%%".
  now rewrite like_any, like_percent.
Qed.

(** *** Dates without leading zeros *)

Lemma match_md_short_table :
  forallb (fun m => forallb (fun d =>
    match match_md (String m (String d EmptyString)) with
    | Some (ms, ds, O) =>
        ((1 <=? int ms) && (int ms <=? 9) && (1 <=? int ds) && (int ds <=? 9))%Z
    | _ => false
    end) (tl digits)) (tl digits) = true.
Proof. vm_compute. reflexivity. Qed.

Lemma char_in_19 (c : ascii) : char_in "1" "9" c = true -> In c (tl digits).
Proof.
  intros H.
  destruct c as [[] [] [] [] [] [] [] []]; try discriminate H;
    cbn; tauto.
Qed.

Lemma strptime_short_date (s : string) :
  short_date s = true -> exists d, strptime_Ymd s = Return d.
Proof.
  intros H.
  destruct s as [|y1 [|y2 [|y3 [|y4 [|m [|d [|x s]]]]]]]; try discriminate H.
  cbn [short_date] in H.
  apply andb_true_iff in H as [H Hyear]. apply andb_true_iff in H as [H Hd].
  apply andb_true_iff in H as [H Hm]. apply andb_true_iff in H as [H Hy4].
  apply andb_true_iff in H as [H Hy3]. apply andb_true_iff in H as [Hy1 Hy2].
  set (Y := String y1 (String y2 (String y3 (String y4 EmptyString)))).
  set (rest := String m (String d EmptyString)).
  assert (M : match_Ymd (Y ++ rest)
              = option_map (fun '(m, d, l3) => (Y, m, d, 6 - l3)) (match_md rest)).
  { unfold match_Ymd, match_md, Y. cbn [append re_Y re_match].
    rewrite Hy1, Hy2, Hy3, Hy4.
    rewrite <- DatetimeFacts.re_match_map.
    apply DatetimeFacts.re_match_ext. intros s2.
    rewrite <- DatetimeFacts.re_match_map.
    apply DatetimeFacts.re_match_ext. intros s3.
    reflexivity. }
  pose proof match_md_short_table as T.
  rewrite forallb_forall in T. specialize (T m (char_in_19 _ Hm)).
  rewrite forallb_forall in T. specialize (T d (char_in_19 _ Hd)).
  fold rest in T.
  pose proof (DatetimeFacts.int_year_bounds y1 y2 y3 y4 Hy1 Hy2 Hy3 Hy4) as By.
  fold Y in By.
  assert (HY : (1 <= int Y)%Z) by (apply Z.leb_le; exact Hyear).
  change (String y1 (String y2 (String y3 (String y4 rest))))
    with (Y ++ rest) in *.
  unfold strptime_Ymd. rewrite M.
  destruct (match_md rest) as [[[ms ds] [|l3]]|]; try discriminate T.
  cbn [option_map].
  change (negb (length (Y ++ rest) =? 6 - 0)%nat) with false. cbn iota.
  apply andb_true_iff in T as [T T4]. apply andb_true_iff in T as [T T3].
  apply andb_true_iff in T as [T1 T2].
  apply Z.leb_le in T1, T2, T3, T4.
  pose proof (DatetimeFacts.days_in_month_bounds (int Y) (int ms)) as Bd.
  unfold datetime.
  replace ((1 <=? int Y) && (int Y <=? 9999))%Z with true
    by (symmetry; apply andb_true_iff; split; apply Z.leb_le; lia).
  replace ((1 <=? int ms) && (int ms <=? 12))%Z with true
    by (symmetry; apply andb_true_iff; split; apply Z.leb_le; lia).
  replace ((1 <=? int ds) && (int ds <=? days_in_month (int Y) (int ms)))%Z
    with true
    by (symmetry; apply andb_true_iff; split; apply Z.leb_le; lia).
  cbn [negb]. eauto.
Qed.

Section ShortDates.
Context {S : Type} `{J : JsonLoads S}.

(** X29. Dates without leading zeros are not refused. For a start and an end
    written as a year, a month 1 to 9 and a day 1 to 9 (six characters,
    as in [201811]) and a store whose scores are JSON,
    [filter_entries_by_date] raises no error of an invalid date: it
    returns the rows whose [cleaned_date] lies between the two texts in
    the order of strings. *)
Theorem filter_entries_by_date_short_dates
    (conn : connection) (start_date end_date : string) :
  short_date start_date = true -> short_date end_date = true ->
  scores_are_json conn ->
  exists rows,
    filter_entries_by_date conn start_date end_date = Return rows
    /\ Permutation (map Return rows)
         (map decode_dated (filter (in_range start_date end_date) conn)).
Proof.
  intros Hs He Hj.
  destruct (strptime_short_date _ Hs) as [ds Ps].
  destruct (strptime_short_date _ He) as [de Pe].
  unfold filter_entries_by_date. rewrite Ps, Pe. cbn [bind].
  destruct (for_each_returns decode_dated
              (filter (in_range start_date end_date) conn)) as [rows [Hr Hm]].
  { apply Forall_filter. now apply decode_dated_returns. }
  exists (sorted (fun row => snd row) rows).
  unfold decode_dated in Hr. unfold in_range in Hr at 1.
  unfold between. rewrite Hr. cbn [bind].
  split; [reflexivity|].
  rewrite <- Hm. apply Permutation_map, sorted_perm.
Qed.

End ShortDates.

Lemma filter_entries_by_date_short_dates_witness :
  let conn :=
    [mkEntry 1 "one" "one" "null" "neutral" "" "20180115" "[]";
     mkEntry 2 "two" "two" "null" "neutral" "" "20181215" "[]"] in
  exists rows,
    filter_entries_by_date (S := unit) conn "201811" "201899" = Return rows
    /\ Permutation (map Return rows)
         (map decode_dated (filter (in_range "201811" "201899") conn)).
Proof.
  apply (filter_entries_by_date_short_dates (S := unit));
    [reflexivity|reflexivity|].
  repeat constructor; now exists tt.
Defined.

(** The range is then a range of texts, not of dates: between [201811]
    and [201899], read as 1 January to 9 September 2018, the row of 15
    December is returned and the row of 15 January is not. *)
Example filter_entries_by_date_short_dates_texts :
  let conn :=
    [mkEntry 1 "one" "one" "null" "neutral" "" "20180115" "[]";
     mkEntry 2 "two" "two" "null" "neutral" "" "20181215" "[]"] in
  filter_entries_by_date (S := unit) conn "201811" "201899"
  = Return [(2%Z, "two", tt, "neutral", "20181215")].
Proof. reflexivity. Qed.

End StoreFacts.

(** ** The routes *)

Module RouteFacts.
Import Database DatabaseFacts DatabaseQueries.

Lemma filter_ids_upto (s e : Z) (l : list Entry) :
  forall a : Z,
    map id l = map (fun i => (a + Z.of_nat i)%Z) (seq 0 (List.length l)) ->
    (s <= a)%Z ->
    filter (fun x => ((s <=? id x) && (id x <=? e))%Z) l
    = firstn (Z.to_nat (e - a + 1)) l.
Proof.
  induction l as [|x l IH]; intros a Hl Hs.
  - now rewrite firstn_nil.
  - cbn [List.length seq map] in Hl. injection Hl as Hx Hl.
    rewrite <- seq_shift, map_map in Hl.
    assert (Hl' : map id l
                  = map (fun i => (a + 1 + Z.of_nat i)%Z) (seq 0 (List.length l))).
    { rewrite Hl. apply map_ext. intros i. lia. }
    specialize (IH (a + 1)%Z Hl' ltac:(lia)).
    change (Z.of_nat 0) with 0%Z in Hx. rewrite Z.add_0_r in Hx.
    cbn [filter]. rewrite IH, Hx.
    replace (s <=? a)%Z with true by (symmetry; apply Z.leb_le; lia).
    cbn [andb].
    destruct (a <=? e)%Z eqn:E.
    + apply Z.leb_le in E.
      replace (Z.to_nat (e - a + 1)) with (Datatypes.S (Z.to_nat (e - (a + 1) + 1)))
        by lia.
      reflexivity.
    + apply Z.leb_gt in E.
      replace (Z.to_nat (e - a + 1)) with 0%nat by lia.
      replace (Z.to_nat (e - (a + 1) + 1)) with 0%nat by lia.
      reflexivity.
Qed.

Lemma filter_ids_window (s e : Z) (l : list Entry) :
  forall a : Z,
    map id l = map (fun i => (a + Z.of_nat i)%Z) (seq 0 (List.length l)) ->
    (a <= s)%Z ->
    filter (fun x => ((s <=? id x) && (id x <=? e))%Z) l
    = firstn (Z.to_nat (e - s + 1)) (skipn (Z.to_nat (s - a)) l).
Proof.
  induction l as [|x l IH]; intros a Hl Hs.
  - now rewrite skipn_nil, firstn_nil.
  - destruct (Z.eq_dec a s) as [->|Hne].
    + replace (Z.to_nat (s - s)) with 0%nat by lia. cbn [skipn].
      apply filter_ids_upto; [exact Hl|lia].
    + pose proof Hl as Hl0.
      cbn [List.length seq map] in Hl. injection Hl as Hx Hl.
      rewrite <- seq_shift, map_map in Hl.
      assert (Hl' : map id l
                    = map (fun i => (a + 1 + Z.of_nat i)%Z)
                          (seq 0 (List.length l))).
      { rewrite Hl. apply map_ext. intros i. lia. }
      specialize (IH (a + 1)%Z Hl' ltac:(lia)).
      change (Z.of_nat 0) with 0%Z in Hx. rewrite Z.add_0_r in Hx.
      cbn [filter]. rewrite IH, Hx.
      replace (s <=? a)%Z with false
        by (symmetry; apply Z.leb_gt; lia).
      cbn [andb].
      replace (Z.to_nat (s - a)) with (Datatypes.S (Z.to_nat (s - (a + 1))))
        by lia.
      reflexivity.
Qed.

(** X11. The id range is a window on the table. On a table whose ids are 1 to
    the number of rows, in this order, [get_entries_by_id] returns for ids
    from 1 on (that fit SQLite's integers) the rows number [start_id] to
    [end_id], both included, in the order of the table, as far as the
    table has them; their number is [min end_id count - start_id + 1], or
    0 where this is negative. *)
Theorem get_entries_by_id_window (conn : connection) (start_id end_id : Z) :
  map id conn = randint 1 (Z.of_nat (List.length conn)) ->
  (1 <= start_id < 2 ^ 63)%Z -> (1 <= end_id < 2 ^ 63)%Z ->
  exists entries,
    Routes.get_entries_by_id conn start_id end_id = Return entries
    /\ entries
       = map (fun row => (id row, text row, sentiment row))
           (firstn (Z.to_nat (end_id - start_id + 1))
                   (skipn (Z.to_nat (start_id - 1)) conn))
    /\ Z.of_nat (List.length entries)
       = Z.max 0 (Z.min end_id (Z.of_nat (List.length conn)) - start_id + 1).
Proof.
  intros Hd Hs He. unfold Routes.get_entries_by_id.
  replace (start_id <? 1)%Z with false by (symmetry; apply Z.ltb_ge; lia).
  replace (end_id <? 1)%Z with false by (symmetry; apply Z.ltb_ge; lia).
  replace (2 ^ 63 <=? start_id)%Z with false by (symmetry; apply Z.leb_gt; lia).
  replace (2 ^ 63 <=? end_id)%Z with false by (symmetry; apply Z.leb_gt; lia).
  cbn [orb].
  assert (Hd' : map id conn
                = map (fun i => (1 + Z.of_nat i)%Z) (seq 0 (List.length conn))).
  { rewrite Hd. unfold randint.
    now replace (Z.to_nat (Z.of_nat (List.length conn) - 1 + 1))
      with (List.length conn) by lia. }
  rewrite (filter_ids_window start_id end_id conn 1 Hd' ltac:(lia)).
  eexists. split; [reflexivity|]. split; [reflexivity|].
  rewrite length_map, length_firstn, length_skipn. lia.
Qed.

Lemma get_entries_by_id_window_witness :
  let conn :=
    [mkEntry 1 "one" "one" "null" "neutral" "" "20180115" "[]";
     mkEntry 2 "two" "two" "null" "neutral" "" "20180102" "[]";
     mkEntry 3 "three" "three" "null" "neutral" "" "20180115" "[]"] in
  exists entries,
    Routes.get_entries_by_id conn 2 9 = Return entries
    /\ entries
       = map (fun row => (id row, text row, sentiment row))
           (firstn (Z.to_nat (9 - 2 + 1)) (skipn (Z.to_nat (2 - 1)) conn))
    /\ Z.of_nat (List.length entries)
       = Z.max 0 (Z.min 9 (Z.of_nat (List.length conn)) - 2 + 1).
Proof.
  apply get_entries_by_id_window; [reflexivity|lia|lia].
Defined.

(** X12. A range of ids whose start lies after its end is no error: for
    [1 <= end_id < start_id < 2^63] the route answers with the empty
    list, whatever the table holds. *)
Theorem get_entries_by_id_reversed (conn : connection) (start_id end_id : Z) :
  (1 <= end_id)%Z -> (end_id < start_id)%Z -> (start_id < 2 ^ 63)%Z ->
  Routes.get_entries_by_id conn start_id end_id = Return [].
Proof.
  intros He Hlt Hs. unfold Routes.get_entries_by_id.
  replace (start_id <? 1)%Z with false by (symmetry; apply Z.ltb_ge; lia).
  replace (end_id <? 1)%Z with false by (symmetry; apply Z.ltb_ge; lia).
  replace (2 ^ 63 <=? start_id)%Z with false by (symmetry; apply Z.leb_gt; lia).
  replace (2 ^ 63 <=? end_id)%Z with false by (symmetry; apply Z.leb_gt; lia).
  cbn [orb]. rewrite filter_none; [reflexivity|].
  intros e _. apply andb_false_iff.
  destruct (Z.leb_spec start_id (id e)); [right; apply Z.leb_gt; lia|now left].
Qed.

Lemma get_entries_by_id_reversed_witness :
  Routes.get_entries_by_id
    [mkEntry 1 "one" "one" "null" "neutral" "" "20180115" "[]"] 2 1
  = Return [].
Proof.
  apply get_entries_by_id_reversed; lia.
Defined.

Section Listing.
Context {S : Type} `{J : JsonLoads S}.

(** X13. The listing is all or nothing. When [read_entries] returns, it
    returns one entry for each row, in the order of the table, with the
    row's text, its sentiment and its scores, parsed and validated; when
    it raises, the exception is the one that [json.loads] raised on the
    scores of some row, or the one that the validation of [Entry] raised
    on the parsed scores of some row, and no entry is returned. So it
    returns exactly when the scores of every row parse and validate. *)
Theorem read_entries_all_or_nothing {D : Type} `{V : Routes.Validates S D}
    (conn : connection) :
  match Routes.read_entries (S := S) (D := D) conn with
  | Return entries =>
      Forall2 (fun row entry =>
                 Routes.text entry = text row
                 /\ Routes.sentiment entry = sentiment row
                 /\ exists s : S,
                      json_loads (scores row) = Return s
                      /\ Routes.validate_scores s
                         = Return (Routes.scores entry))
              conn entries
  | Raise x =>
      exists row : Entry,
        In row conn
        /\ (json_loads (scores row) = Raise x
            \/ exists s : S,
                 json_loads (scores row) = Return s
                 /\ Routes.validate_scores (D := D) s = Raise x)
  end.
Proof.
  unfold Routes.read_entries, get_all_entries.
  induction conn as [|row conn IH]; [constructor|].
  cbn [for_each].
  destruct (json_loads (scores row)) as [s|x] eqn:Hs; cbn [bind].
  - unfold Routes.new_Entry at 1.
    destruct (Routes.validate_scores s) as [d|x] eqn:Hd; cbn [bind].
    + destruct (for_each _ conn) as [entries|x]; cbn [bind].
      * constructor; [|exact IH]. cbn. repeat split. exists s. now rewrite Hs.
      * destruct IH as [row' [Hin Hx]]. exists row'.
        split; [now right|exact Hx].
    + exists row. split; [now left|]. right. exists s. now split.
  - exists row. split; [now left|now left].
Qed.


End Listing.

(** X15. Ingestion happens at most once. After a startup the table exists; a
    startup that finds the table adds nothing to it and raises nothing,
    whatever the file of tweets holds; so when the first startup fails
    while it prepares the entries, the table stays empty on every later
    startup. *)
Theorem lifespan_ingests_once
    (db : database) (data data' : result (list new_entry)) :
  fst (Routes.lifespan db data) <> None
  /\ Routes.lifespan (fst (Routes.lifespan db data)) data'
     = (fst (Routes.lifespan db data), Return tt)
  /\ (forall conn : connection,
        Routes.lifespan (Some conn) data = (Some conn, Return tt))
  /\ (forall x : exn,
        Routes.lifespan (fst (Routes.lifespan None (Raise x))) data'
        = (Some [], Return tt)).
Proof.
  repeat split; try reflexivity.
  - destruct db as [conn|]; [discriminate|].
    now destruct data.
  - destruct db as [conn|]; [reflexivity|].
    now destruct data.
Qed.

End RouteFacts.

(** ** The word counts *)

Module WordCountFacts.
Import Preprocess Database DatabaseQueries.

(** *** The words of a text *)

Lemma run_length_app_stop (p : ascii -> bool) (a b : string) (c : ascii) :
  p c = false -> run_length p (a ++ String c b) = run_length p a.
Proof.
  intros Hc. induction a as [|x a IH]; simpl; [now rewrite Hc|].
  now rewrite IH.
Qed.

Lemma substring_app_run (p : ascii -> bool) (a b : string) :
  substring 0 (run_length p a) (a ++ b) = substring 0 (run_length p a) a.
Proof.
  induction a as [|x a IH]; simpl; [now destruct b|].
  destruct (p x); [|reflexivity]. simpl. now rewrite IH.
Qed.

Lemma word_no_run (prev : option ascii) (s : string) :
  run_length is_word s = 0 -> word prev s = None.
Proof.
  intros H. unfold word. rewrite H. destruct prev as [p|]; [|reflexivity].
  now destruct (is_word p).
Qed.

Lemma word_start (prev : option ascii) (s : string) :
  match prev with Some p => is_word p | None => false end = false ->
  word prev s = match run_length is_word s with
                | O => None
                | S k => Some (S k)
                end.
Proof.
  intros H. unfold word. destruct prev as [p|]; [|reflexivity]. now rewrite H.
Qed.

Lemma findall_word_app (a b : string) (sp : ascii) :
  is_word sp = false ->
  forall prev : option ascii,
    (match prev with Some p => is_word p | None => false end = false ->
     re_findall_from word prev 0 (a ++ String sp b)
     = (re_findall_from word prev 0 a
        ++ re_findall_from word (Some sp) 0 b)%list)
    /\ re_findall_from word prev (run_length is_word a) (a ++ String sp b)
       = (re_findall_from word prev (run_length is_word a) a
          ++ re_findall_from word (Some sp) 0 b)%list.
Proof.
  intros Hsp. induction a as [|c a IH]; intros prev.
  - assert (E : re_findall_from word prev 0 (String sp b)
                = re_findall_from word (Some sp) 0 b).
    { cbn [re_findall_from]. rewrite word_no_run; [reflexivity|].
      simpl. now rewrite Hsp. }
    split; [intros _|]; exact E.
  - destruct (IH (Some c)) as [IH1 IH2].
    destruct (is_word c) eqn:Hc.
    + split.
      * intros Hp.
        change (String c a ++ String sp b) with (String c (a ++ String sp b)).
        cbn [re_findall_from]. rewrite !(word_start prev _ Hp).
        cbn [run_length]. rewrite Hc, (run_length_app_stop _ _ _ _ Hsp).
        rewrite IH2. cbn [app]. f_equal.
        change (String c (a ++ String sp b)) with (String c a ++ String sp b).
        pose proof (substring_app_run is_word (String c a) (String sp b)) as E.
        cbn [run_length] in E. rewrite Hc in E. exact E.
      * cbn [run_length]. rewrite Hc.
        change (String c a ++ String sp b) with (String c (a ++ String sp b)).
        cbn [re_findall_from]. exact IH2.
    + assert (E : forall skip,
                 skip = 0 ->
                 re_findall_from word prev skip (String c a ++ String sp b)
                 = (re_findall_from word prev skip (String c a)
                    ++ re_findall_from word (Some sp) 0 b)%list).
      { intros skip ->.
        change (String c a ++ String sp b) with (String c (a ++ String sp b)).
        cbn [re_findall_from].
        rewrite !word_no_run by (simpl; now rewrite Hc).
        apply IH1. reflexivity. }
      split; [intros _; now apply E|].
      apply E. simpl. now rewrite Hc.
Qed.

Lemma findall_word_prev (prev : option ascii) (s : string) :
  match prev with Some p => is_word p | None => false end = false ->
  re_findall_from word prev 0 s = re_findall word s.
Proof.
  intros Hp. unfold re_findall. destruct s as [|c t]; [reflexivity|].
  cbn [re_findall_from]. now rewrite (word_start prev _ Hp), (word_start None).
Qed.

Lemma str_lower_app (a b : string) :
  str_lower (a ++ b) = str_lower a ++ str_lower b.
Proof. induction a as [|c a IH]; simpl; [reflexivity|now rewrite IH]. Qed.

(** Joining the texts with a space neither merges nor splits words. *)
Lemma words_of_join (texts : list string) :
  re_findall word (str_lower (join " " texts)) = flat_map words_of texts.
Proof.
  induction texts as [|x rest IH]; [reflexivity|].
  destruct rest as [|y rest].
  - cbn [join flat_map]. now rewrite app_nil_r.
  - change (join " " (x :: y :: rest))
      with (x ++ String " " (join " " (y :: rest))).
    rewrite str_lower_app.
    change (str_lower (String " " (join " " (y :: rest))))
      with (String " " (str_lower (join " " (y :: rest)))).
    unfold re_findall at 1.
    rewrite (proj1 (findall_word_app _ _ " " eq_refl None) eq_refl).
    rewrite (findall_word_prev (Some " "%char)) by reflexivity.
    rewrite IH. reflexivity.
Qed.

Lemma all_chars_substring (q : ascii -> bool) (n : nat) :
  forall s, all_chars q s = true -> all_chars q (substring 0 n s) = true.
Proof.
  induction n as [|n IH]; intros [|c t] H; try reflexivity.
  simpl in H |- *. apply andb_true_iff in H as [Hc Ht].
  now rewrite Hc, IH.
Qed.

Lemma all_chars_run (p : ascii -> bool) (s : string) :
  all_chars p (substring 0 (run_length p s) s) = true.
Proof.
  induction s as [|c t IH]; [reflexivity|].
  simpl. destruct (p c) eqn:Hc; [|reflexivity].
  simpl. now rewrite Hc, IH.
Qed.

Lemma word_match (prev : option ascii) (s : string) (n : nat) :
  word prev s = Some n -> n = run_length is_word s /\ n <> 0.
Proof.
  unfold word. destruct (run_length is_word s) as [|k].
  - destruct prev as [p|]; [destruct (is_word p)|]; discriminate.
  - destruct prev as [p|]; [destruct (is_word p)|]; try discriminate;
      intros E; inversion E; now split.
Qed.

Lemma findall_word_shape (q : ascii -> bool) (s : string) :
  all_chars q s = true ->
  forall prev skip,
    Forall (fun w => w <> "" /\ all_chars is_word w = true
                     /\ all_chars q w = true)
           (re_findall_from word prev skip s).
Proof.
  induction s as [|c t IH]; intros Hq prev skip; [constructor|].
  pose proof Hq as Hq0.
  simpl in Hq. apply andb_true_iff in Hq as [_ Hq].
  cbn [re_findall_from]. destruct skip as [|k]; [|now apply IH].
  destruct (word prev (String c t)) as [[|k]|] eqn:E; try now apply IH.
  constructor; [|now apply IH].
  apply word_match in E as [E _]. rewrite E. split; [|split].
  - simpl in E |- *. destruct (is_word c); discriminate.
  - apply all_chars_run.
  - now apply all_chars_substring.
Qed.

Lemma lower_char_is_lower (c : ascii) : is_lower (lower_char c) = true.
Proof.
  destruct c as [[] [] [] [] [] [] [] []]; reflexivity.
Qed.

Lemma str_lower_is_lower (s : string) :
  all_chars is_lower (str_lower s) = true.
Proof.
  induction s as [|c t IH]; [reflexivity|].
  cbn [str_lower all_chars]. now rewrite lower_char_is_lower, IH.
Qed.

(** *** Dictionaries *)

Section Dict.
Context {V : Type}.

Lemma dict_set_fresh (k : string) (v : V) (d : list (string * V)) :
  ~ In k (map fst d) -> dict_set k v d = (d ++ [(k, v)])%list.
Proof.
  induction d as [|[k' v'] d IH]; intros Hk; [reflexivity|].
  cbn [dict_set]. destruct (String.eqb_spec k' k) as [->|Hne].
  - exfalso. apply Hk. now left.
  - cbn [app]. rewrite IH; [reflexivity|]. intros Hin. apply Hk. now right.
Qed.

Lemma dict_set_keys (k : string) (v : V) (d : list (string * V)) :
  In k (map fst d) -> map fst (dict_set k v d) = map fst d.
Proof.
  induction d as [|[k' v'] d IH]; intros Hk; [contradiction|].
  cbn [dict_set]. destruct (String.eqb_spec k' k) as [->|Hne]; [reflexivity|].
  cbn [map fst]. rewrite IH; [reflexivity|].
  destruct Hk as [Hk|Hk]; [contradiction|exact Hk].
Qed.

Lemma dict_get_set (k k' : string) (v default : V) (d : list (string * V)) :
  dict_get k' default (dict_set k v d)
  = if String.eqb k k' then v else dict_get k' default d.
Proof.
  induction d as [|[k0 v0] d IH].
  - cbn [dict_set dict_get]. reflexivity.
  - cbn [dict_set]. destruct (String.eqb_spec k0 k) as [->|Hne].
    + cbn [dict_get]. now destruct (String.eqb k k').
    + cbn [dict_get]. rewrite IH.
      destruct (String.eqb_spec k0 k') as [->|Hne']; [|reflexivity].
      destruct (String.eqb_spec k k') as [->|]; [contradiction|reflexivity].
Qed.

Lemma dict_items_get (default : V) (d : list (string * V)) :
  NoDup (map fst d) ->
  d = map (fun k => (k, dict_get k default d)) (map fst d).
Proof.
  induction d as [|[k v] d IH]; intros Hnd; [reflexivity|].
  cbn [map fst] in Hnd |- *. apply NoDup_cons_iff in Hnd as [Hk Hnd].
  cbn [dict_get]. rewrite String.eqb_refl. f_equal.
  rewrite (IH Hnd) at 1. apply map_ext_in. intros k' Hk'.
  destruct (String.eqb_spec k k') as [->|]; [contradiction|reflexivity].
Qed.

Lemma dict_from (items : list (string * V)) :
  forall d : list (string * V),
    NoDup (map fst (d ++ items)%list) ->
    fold_left (fun d kv => dict_set (fst kv) (snd kv) d) items d
    = (d ++ items)%list.
Proof.
  induction items as [|[k v] items IH]; intros d Hnd.
  - cbn. now rewrite app_nil_r.
  - cbn [fold_left fst snd].
    assert (Hk : ~ In k (map fst d)).
    { rewrite map_app in Hnd. cbn [map fst] in Hnd.
      apply NoDup_remove_2 in Hnd. intros Hin. apply Hnd.
      apply in_or_app. now left. }
    rewrite (dict_set_fresh k v d Hk).
    rewrite IH; rewrite <- app_assoc; [reflexivity|exact Hnd].
Qed.

(** [dict(items)] on items with distinct keys is these items. *)
Lemma dict_distinct (items : list (string * V)) :
  NoDup (map fst items) -> dict items = items.
Proof. intros Hnd. unfold dict. now rewrite dict_from. Qed.

End Dict.

(** *** [Counter] *)

Lemma Counter_get (words : list string) (w : string) :
  forall d : list (string * nat),
    dict_get w 0 (fold_left (fun d w => dict_set w (dict_get w 0 d + 1) d)
                            words d)
    = dict_get w 0 d + count_occ string_dec words w.
Proof.
  induction words as [|x words IH]; intros d; [cbn; lia|].
  cbn [fold_left count_occ]. rewrite IH, dict_get_set.
  destruct (string_dec x w) as [->|Hne].
  - rewrite String.eqb_refl. lia.
  - destruct (String.eqb_spec x w); [contradiction|lia].
Qed.

Lemma Counter_keys_rev (l : list string) :
  map fst (fold_right (fun w d => dict_set w (dict_get w 0 d + 1) d) [] l)
  = rev (nodup string_dec l).
Proof.
  induction l as [|w l IH]; [reflexivity|].
  cbn [fold_right nodup].
  destruct (in_dec string_dec w l) as [Hin|Hin].
  - rewrite dict_set_keys; [exact IH|].
    rewrite IH. apply in_rev. rewrite rev_involutive. now apply nodup_In.
  - rewrite dict_set_fresh.
    + rewrite map_app, IH. reflexivity.
    + rewrite IH. intros H. apply Hin.
      apply in_rev in H. now apply nodup_In in H.
Qed.

Lemma Counter_keys (words : list string) :
  map fst (Counter words) = first_seen words.
Proof.
  unfold Counter, first_seen. rewrite <- Counter_keys_rev.
  now rewrite fold_left_rev_right.
Qed.

Lemma first_seen_NoDup (words : list string) : NoDup (first_seen words).
Proof. apply NoDup_rev, NoDup_nodup. Qed.

Lemma first_seen_In (words : list string) (w : string) :
  In w (first_seen words) <-> In w words.
Proof.
  unfold first_seen. rewrite <- in_rev, nodup_In, <- in_rev. reflexivity.
Qed.

(** [Counter(words)] holds each distinct word, in the order of the first
    occurrences, with the number of its occurrences. *)
Lemma Counter_items (words : list string) :
  Counter words
  = map (fun w => (w, count_occ string_dec words w)) (first_seen words).
Proof.
  rewrite (dict_items_get 0 (Counter words)).
  - rewrite Counter_keys. apply map_ext. intros w.
    unfold Counter. now rewrite Counter_get.
  - rewrite Counter_keys. apply first_seen_NoDup.
Qed.

(** *** Sorting by a count, largest first *)

Section Reverse.
Context {A : Type} (key : A -> nat).

Lemma insert_reverse_perm (x : A) (l : list A) :
  Permutation (insert_reverse key x l) (x :: l).
Proof.
  induction l as [|y l IH]; simpl; [reflexivity|].
  destruct (key y <=? key x)%nat; [reflexivity|].
  rewrite IH. apply perm_swap.
Qed.

Lemma sorted_reverse_perm (l : list A) : Permutation (sorted_reverse key l) l.
Proof.
  induction l as [|x l IH]; simpl; [reflexivity|].
  rewrite insert_reverse_perm. now constructor.
Qed.

Lemma insert_reverse_sorted (x : A) (l : list A) :
  StronglySorted (fun a b => key b <= key a) l ->
  StronglySorted (fun a b => key b <= key a) (insert_reverse key x l).
Proof.
  induction l as [|y l IH]; intros Hs; simpl.
  - repeat constructor.
  - inversion Hs as [|? ? Hl Hy]; subst.
    destruct (Nat.leb_spec (key y) (key x)) as [E|E].
    + constructor; [exact Hs|]. constructor; [exact E|].
      eapply Forall_impl; [|exact Hy]. intros z Hz. cbv beta in Hz. lia.
    + constructor; [now apply IH|].
      apply (Permutation_Forall (Permutation_sym (insert_reverse_perm x l))).
      constructor; [lia|exact Hy].
Qed.

Lemma sorted_reverse_sorted (l : list A) :
  StronglySorted (fun a b => key b <= key a) (sorted_reverse key l).
Proof.
  induction l as [|x l IH]; simpl; [constructor|].
  now apply insert_reverse_sorted.
Qed.

Lemma insert_reverse_stable (n : nat) (x : A) (l : list A) :
  filter (fun y => (key y =? n)%nat) (insert_reverse key x l)
  = filter (fun y => (key y =? n)%nat) (x :: l).
Proof.
  induction l as [|y l IH]; [reflexivity|].
  cbn [insert_reverse].
  destruct (Nat.leb_spec (key y) (key x)) as [E|E]; [reflexivity|].
  cbn [filter] in IH |- *. rewrite IH.
  destruct (Nat.eqb_spec (key x) n) as [Hx|Hx]; [|reflexivity].
  destruct (Nat.eqb_spec (key y) n) as [Hy|Hy]; [|reflexivity].
  lia.
Qed.

Lemma sorted_reverse_stable (n : nat) (l : list A) :
  filter (fun y => (key y =? n)%nat) (sorted_reverse key l)
  = filter (fun y => (key y =? n)%nat) l.
Proof.
  induction l as [|x l IH]; [reflexivity|].
  cbn [sorted_reverse fold_right]. rewrite insert_reverse_stable.
  cbn [filter]. fold (sorted_reverse key l). now rewrite IH.
Qed.

Lemma sorted_reverse_fixed (l : list A) :
  StronglySorted (fun a b => key b <= key a) l -> sorted_reverse key l = l.
Proof.
  induction 1 as [|x l Hs IH Hx]; [reflexivity|].
  cbn [sorted_reverse fold_right]. fold (sorted_reverse key l). rewrite IH.
  destruct l as [|y l]; [reflexivity|].
  cbn [insert_reverse]. inversion Hx as [|? ? Hy _]; subst.
  now rewrite (proj2 (Nat.leb_le _ _) Hy).
Qed.

End Reverse.

(** *** [get_word_counts_db] *)

Lemma Counter_sorted_keys (words : list string) :
  NoDup (map fst (sorted_reverse snd (Counter words))).
Proof.
  apply (Permutation_NoDup
           (Permutation_map fst
              (Permutation_sym (sorted_reverse_perm snd (Counter words))))).
  rewrite Counter_keys. apply first_seen_NoDup.
Qed.

(** The function, in one equation: the distinct words of the table in the
    order of their first occurrences, each with the number of its
    occurrences, in the stable descending order of these numbers. *)
Lemma get_word_counts_db_items (conn : connection) :
  get_word_counts_db conn
  = sorted_reverse snd
      (map (fun w => (w, count_occ string_dec (all_words conn) w))
           (first_seen (all_words conn))).
Proof.
  unfold get_word_counts_db. rewrite words_of_join.
  fold (all_words conn). rewrite dict_distinct by apply Counter_sorted_keys.
  now rewrite Counter_items.
Qed.

(** X16. The dictionary of word counts is ordered by count, largest first, and
    no word is listed twice. *)
Theorem get_word_counts_db_sorted (conn : connection) :
  StronglySorted (fun a b => snd b <= snd a) (get_word_counts_db conn)
  /\ NoDup (map fst (get_word_counts_db conn)).
Proof.
  rewrite get_word_counts_db_items. split; [apply sorted_reverse_sorted|].
  rewrite <- Counter_items. apply Counter_sorted_keys.
Qed.

Lemma get_word_counts_db_In (conn : connection) (w : string) (n : nat) :
  In (w, n) (get_word_counts_db conn)
  <-> 0 < n /\ n = count_occ string_dec (all_words conn) w.
Proof.
  rewrite get_word_counts_db_items. split.
  - intros Hin.
    apply (Permutation_in _ (sorted_reverse_perm snd _)) in Hin.
    apply in_map_iff in Hin as [w' [E Hin]]. inversion E; subst.
    apply (proj1 (first_seen_In _ _)) in Hin. split; [|reflexivity].
    exact (proj1 (count_occ_In string_dec _ _) Hin).
  - intros [Hn ->].
    apply (Permutation_in _ (Permutation_sym (sorted_reverse_perm snd _))).
    apply in_map_iff. exists w. split; [reflexivity|].
    apply (proj2 (first_seen_In _ _)).
    exact (proj2 (count_occ_In string_dec _ _) Hn).
Qed.

(** X17. The counts are right: the dictionary maps a word to [n] exactly when
    the word occurs [n] times, [n] at least 1, among the words of the
    rows, where the words of a row are the maximal runs of word characters
    of its [cleaned_text] in lower case; words of different rows are never
    merged. *)
Theorem get_word_counts_db_counts (conn : connection) (w : string) (n : nat) :
  In (w, n) (get_word_counts_db conn)
  <-> 0 < n /\ n = count_occ string_dec (all_words conn) w.
Proof. apply get_word_counts_db_In. Qed.

(** X18. Ties keep the order of first occurrence: for each count [n], the
    words the dictionary lists with this count come in the order in which
    they first occur in the table. *)
Theorem get_word_counts_db_ties (conn : connection) (n : nat) :
  map fst (filter (fun item => (snd item =? n)%nat) (get_word_counts_db conn))
  = filter (fun w => (count_occ string_dec (all_words conn) w =? n)%nat)
           (first_seen (all_words conn)).
Proof.
  rewrite get_word_counts_db_items, (sorted_reverse_stable snd n).
  induction (first_seen (all_words conn)) as [|w l IH]; [reflexivity|].
  cbn [map filter snd].
  destruct (count_occ string_dec (all_words conn) w =? n)%nat;
    cbn [map fst]; now rewrite IH.
Qed.

(** X19. The keys are words in lower case: each key of the dictionary is not
    empty, consists of word characters only (letters, digits and ['_']: no
    white space, no punctuation), and holds no character that [str.lower]
    would change. *)
Theorem get_word_counts_db_keys (conn : connection) :
  Forall (fun w => w <> "" /\ all_chars is_word w = true
                   /\ all_chars is_lower w = true)
         (map fst (get_word_counts_db conn)).
Proof.
  apply Forall_forall. intros w Hw.
  apply in_map_iff in Hw as [[w' n] [E Hin]]. cbn in E. subst w'.
  apply get_word_counts_db_In in Hin as [Hn ->].
  apply (proj2 (count_occ_In string_dec _ _)) in Hn.
  revert w Hn. apply Forall_forall.
  unfold all_words. induction (map cleaned_text conn) as [|x l IH];
    [constructor|].
  cbn [flat_map]. apply Forall_app. split; [|exact IH].
  apply findall_word_shape, str_lower_is_lower.
Qed.

Lemma NoDup_firstn {X : Type} (n : nat) :
  forall l : list X, NoDup l -> NoDup (firstn n l).
Proof.
  induction n as [|n IH]; intros [|x l] Hnd; try constructor.
  - apply NoDup_cons_iff in Hnd as [Hx _]. intros Hin. apply Hx.
    now apply SimilarityFacts.In_firstn in Hin.
  - apply IH. now apply NoDup_cons_iff in Hnd.
Qed.

(** X20. The page shows a prefix of the dictionary. For a positive [n] and the
    word counts of a table that has words, the top words the page shows
    are the first [n] items of the dictionary the route returned, in their
    order: sorting them again changes nothing. *)
Theorem top_words_prefix (conn : connection) (n : Z) :
  (0 < n)%Z ->
  Frontend.top_words n (get_word_counts_db conn)
  = match get_word_counts_db conn with
    | [] => Frontend.NoWordsFound
    | _ :: _ =>
        Frontend.TopWords (firstn (Z.to_nat n) (get_word_counts_db conn))
    end.
Proof.
  intros Hn. unfold Frontend.top_words.
  replace (n >? 0)%Z with true by (symmetry; apply Z.gtb_lt; lia).
  assert (Hs : StronglySorted (fun a b => snd b <= snd a)
                 (get_word_counts_db conn)).
  { rewrite get_word_counts_db_items. apply sorted_reverse_sorted. }
  assert (Hk : NoDup (map fst (get_word_counts_db conn))).
  { rewrite get_word_counts_db_items, <- Counter_items.
    apply Counter_sorted_keys. }
  destruct (get_word_counts_db conn) as [|item items] eqn:E; [reflexivity|].
  rewrite (sorted_reverse_fixed snd _ Hs).
  rewrite dict_distinct; [reflexivity|].
  rewrite <- firstn_map. now apply NoDup_firstn.
Qed.

Lemma top_words_prefix_witness :
  let conn := [mkEntry 1 "" "so lit so dope" "null" "positive" "" "" "[]";
               mkEntry 2 "" "lit" "null" "positive" "" "" "[]"] in
  Frontend.top_words 2 (get_word_counts_db conn)
  = match get_word_counts_db conn with
    | [] => Frontend.NoWordsFound
    | _ :: _ =>
        Frontend.TopWords (firstn (Z.to_nat 2) (get_word_counts_db conn))
    end.
Proof.
  apply top_words_prefix. lia.
Defined.

End WordCountFacts.


(** ** More on the ranking *)

Module RankingFacts.
Import Database Similarity SimilarityFacts.

Lemma forallb_length_inv (d : nat) (rows : list Embedding) :
  forallb (fun r => (List.length r =? d)%nat) rows = true ->
  Forall (fun r => List.length r = d) rows.
Proof.
  intros Hf. apply Forall_forall. intros r Hr.
  apply Nat.eqb_eq. exact (proj1 (forallb_forall _ _) Hf r Hr).
Qed.

Lemma with_similarity_fst `{Sklearn} (model : SentenceTransformer)
    (input_text : string) (df : Frame) :
  map fst (with_similarity model input_text df) = df.
Proof.
  unfold with_similarity.
  pose proof (pairwise_cosine_length (encode model input_text) (map snd df))
    as L.
  rewrite length_map in L. revert L.
  generalize (pairwise_cosine (encode model input_text) (map snd df)).
  induction df as [|row df IH]; intros [|s sims] L; try discriminate;
    [reflexivity|].
  cbn [combine map fst]. f_equal. apply IH. now injection L.
Qed.

(** X25. When the ranking raises. [get_top_n_similar_texts] returns a list
    exactly when the frame has a row and every embedding in it has the
    length of the embedding of the input text, which is not 0; on an empty
    frame and on embeddings of another length it raises. *)
Theorem get_top_n_similar_texts_returns `{Sklearn} `{Pandas}
    (model : SentenceTransformer) (df : Frame) (input_text : string)
    (top_n : Z) :
  (exists texts,
      get_top_n_similar_texts df input_text top_n model = Return texts)
  <-> df <> [] /\ well_shaped model input_text df.
Proof.
  split.
  - intros [texts Ht]. unfold get_top_n_similar_texts, vstack in Ht.
    destruct df as [|row df]; [discriminate|]. split; [discriminate|].
    remember (row :: df) as rows.
    destruct (map snd rows) as [|first rest] eqn:Em; [discriminate|].
    rewrite <- Em in Ht.
    destruct (forallb (fun r => (List.length r =? List.length first)%nat)
                (map snd rows)); [|discriminate].
    cbn [bind] in Ht. unfold cosine_similarity in Ht.
    destruct (List.length (encode model input_text) =? 0)%nat eqn:E0;
      [discriminate|].
    destruct (forallb (fun y => (List.length y
                                 =? List.length (encode model input_text))%nat)
                (map snd rows)) eqn:Ef; [|discriminate].
    split; [now apply Nat.eqb_neq|].
    apply forallb_length_inv in Ef.
    now apply Forall_map in Ef.
  - intros [Hne Hw].
    rewrite (get_top_n_similar_texts_nlargest model input_text df top_n Hne Hw).
    eauto.
Qed.

(** X26. How many texts come back. On a frame with rows and well-shaped
    embeddings the ranking returns [min top_n count] texts, none for a
    [top_n] below 1; a [top_n] of the number of rows or more is no error
    and returns every text of the frame once. *)
Theorem get_top_n_similar_texts_length `{Sklearn} `{Pandas}
    (model : SentenceTransformer) (df : Frame) (input_text : string)
    (top_n : Z) :
  df <> [] -> well_shaped model input_text df ->
  exists texts,
    get_top_n_similar_texts df input_text top_n model = Return texts
    /\ List.length texts
       = Z.to_nat (Z.min top_n (Z.of_nat (List.length df)))
    /\ ((Z.of_nat (List.length df) <= top_n)%Z ->
        Permutation texts (map fst df)).
Proof.
  intros Hne Hw.
  rewrite (get_top_n_similar_texts_nlargest model input_text df top_n Hne Hw).
  eexists. split; [reflexivity|].
  pose proof (with_similarity_length model input_text df) as L.
  pose proof (with_similarity_fst model input_text df) as F.
  set (rows := with_similarity model input_text df) in *.
  pose proof (Permutation_length (sort_desc_perm snd rows)) as Ld.
  pose proof (sort_values_perm _ snd rows) as Pv.
  pose proof (Permutation_length Pv) as Lv.
  unfold nlargest. destruct (Z.leb_spec top_n 0) as [Hn|Hn].
  - split; [simpl; lia|]. intros Hlen.
    destruct df; [contradiction|simpl in Hlen; lia].
  - rewrite L. destruct (Z.leb_spec (Z.of_nat (List.length df)) top_n) as [Ha|Ha].
    + split.
      * rewrite length_map, length_firstn. lia.
      * intros _. rewrite firstn_all2 by lia.
        rewrite <- F, <- map_map with (f := fst) (g := fst).
        now apply Permutation_map, Permutation_map.
    + split; [|lia].
      rewrite length_map, length_firstn. lia.
Qed.

Lemma get_top_n_similar_texts_length_witness :
  let model := {| encode := fun _ => [1; 0]%R |} in
  let df := [("one", [1; 0]); ("two", [0; 1])]%R in
  exists texts,
    get_top_n_similar_texts (H := exact_sklearn) (H0 := stable_pandas)
      df "query" 5 model = Return texts
    /\ List.length texts
       = Z.to_nat (Z.min 5 (Z.of_nat (List.length df)))
    /\ ((Z.of_nat (List.length df) <= 5)%Z ->
        Permutation texts (map fst df)).
Proof.
  apply (get_top_n_similar_texts_length (H := exact_sklearn)
           (H0 := stable_pandas)); [discriminate|].
  split; [discriminate|]. repeat constructor.
Defined.

(** X27. The errors of the route. A [top_n] below 1 is refused with the
    status 422; an id outside the 64-bit integers ends in the status 500;
    an id within them that no row has gives the error 404; and when the
    row with the id is the only row of the table, there is nothing to rank
    and the route raises the [ValueError] of an empty stack instead of
    returning an empty list. *)
Theorem top_n_similar_texts_errors `{Sklearn} `{Pandas} `{JsonLoads Embedding}
    (conn : connection) (model : SentenceTransformer) (id top_n : Z) :
  ((top_n < 1)%Z ->
   top_n_similar_texts conn model id top_n
   = Raise (HTTPException 422 "Input should be greater than or equal to 1"))
  /\ ((1 <= top_n)%Z -> (id < - 2 ^ 63 \/ 2 ^ 63 <= id)%Z ->
      top_n_similar_texts conn model id top_n
      = Raise (HTTPException 500 "Internal Server Error"))
  /\ ((1 <= top_n)%Z -> (- 2 ^ 63 <= id < 2 ^ 63)%Z ->
      (forall e, In e conn -> Database.id e <> id) ->
      top_n_similar_texts conn model id top_n
      = Raise (HTTPException 404 "Text not found for the given ID"))
  /\ ((1 <= top_n)%Z -> (- 2 ^ 63 <= id < 2 ^ 63)%Z -> conn <> [] ->
      (forall e, In e conn -> Database.id e = id) ->
      top_n_similar_texts conn model id top_n
      = Raise (ValueError "need at least one array to concatenate")).
Proof.
  unfold top_n_similar_texts.
  assert (In64 : (- 2 ^ 63 <= id < 2 ^ 63)%Z ->
                 ((id <? - 2 ^ 63) || (2 ^ 63 <=? id))%Z = false).
  { intros Hr. apply orb_false_iff.
    split; [apply Z.ltb_ge|apply Z.leb_gt]; lia. }
  split; [|split; [|split]].
  - intros Hn. now rewrite (proj2 (Z.ltb_lt _ _) Hn).
  - intros Hn Hr. rewrite (proj2 (Z.ltb_ge _ _) Hn).
    replace ((id <? - 2 ^ 63) || (2 ^ 63 <=? id))%Z with true; [reflexivity|].
    symmetry. apply orb_true_iff.
    destruct Hr as [Hr|Hr]; [left; apply Z.ltb_lt|right; apply Z.leb_le]; lia.
  - intros Hn Hr Hid. rewrite (proj2 (Z.ltb_ge _ _) Hn), (In64 Hr).
    rewrite DatabaseFacts.filter_none; [reflexivity|].
    intros e He. apply Z.eqb_neq. now apply Hid.
  - intros Hn Hr Hne Hid. rewrite (proj2 (Z.ltb_ge _ _) Hn), (In64 Hr).
    destruct conn as [|row conn]; [contradiction|].
    cbn [filter]. rewrite (proj2 (Z.eqb_eq _ _) (Hid row (or_introl eq_refl))).
    cbn [fetchone hd_error negb].
    rewrite DatabaseFacts.filter_none; [reflexivity|].
    intros e He. apply negb_false_iff, Z.eqb_eq, Hid. now right.
Qed.

End RankingFacts.
